(** * TechSalaryToday, POC scraper: extraction and translation pipeline

    A shallow embedding of [POC/poc_scraper/poc_scraper.py]:
    - [GroqTranslator.translate_text] (the translator adapter),
    - [extract_structured_job_info] (company info, features, contact info
      and the line-by-line section segmentation),
    - [translate_structured_job_info] (the record translation orchestrator).

    Python strings are sequences of Unicode code points, so a [str] is a
    [list N]; dictionaries keep insertion order, so a [dict] is an
    association list; the objects that the orchestrator shares between its
    input and its output live in an explicit heap. *)

From Stdlib Require Import List NArith ZArith Lia Bool Permutation.
From Stdlib Require String Ascii.
Import ListNotations.
Import String.StringSyntax.
Delimit Scope string_scope with string.

Local Open Scope N_scope.
Local Open Scope list_scope.

(* ===================================================================== *)
(** ** Python strings *)
(* ===================================================================== *)

Definition pystr := list N.

(** An ASCII literal of the source, as code points. *)
Definition lit (s : String.string) : pystr :=
  map Ascii.N_of_ascii (String.list_ascii_of_string s).
Arguments lit s%_string.

Fixpoint str_eqb (a b : pystr) : bool :=
  match a, b with
  | [], [] => true
  | x :: a', y :: b' => (x =? y) && str_eqb a' b'
  | _, _ => false
  end.

(** The newline character and the middle dot of the company line. *)
Definition NL : N := 10.
Definition MIDDLE_DOT : N := 183.

(** [str.isspace] on one character: the code points that [str.strip()] and
    [str.split()] treat as white space. *)
Definition is_space (c : N) : bool :=
  ((9 <=? c) && (c <=? 13)) || ((28 <=? c) && (c <=? 32))
  || (c =? 133) || (c =? 160) || (c =? 5760)
  || ((8192 <=? c) && (c <=? 8202))
  || (c =? 8232) || (c =? 8233) || (c =? 8239) || (c =? 8287)
  || (c =? 12288).

Fixpoint lstrip (s : pystr) : pystr :=
  match s with
  | [] => []
  | c :: s' => if is_space c then lstrip s' else s
  end.

Definition rstrip (s : pystr) : pystr := rev (lstrip (rev s)).

(** [s.strip()] *)
Definition strip (s : pystr) : pystr := rstrip (lstrip s).

(** Python truthiness of a string: [if s:] *)
Definition truthy (s : pystr) : bool :=
  match s with [] => false | _ => true end.

(** [s.split(sep)] for a one-character separator ("\n" and "·" in the
    source): always at least one piece. *)
Fixpoint split_on (sep : N) (s : pystr) : list pystr :=
  match s with
  | [] => [[]]
  | c :: s' =>
      if c =? sep then [] :: split_on sep s'
      else match split_on sep s' with
           | [] => [[c]]
           | w :: ws => (c :: w) :: ws
           end
  end.

(** [sep.join(parts)] *)
Fixpoint join (sep : pystr) (parts : list pystr) : pystr :=
  match parts with
  | [] => []
  | [p] => p
  | p :: ps => p ++ sep ++ join sep ps
  end.

(** [s.split()]: the maximal runs of characters that are not white space.
    [word] is the run being read (empty between words). *)
Fixpoint split_ws_aux (word : pystr) (s : pystr) : list pystr :=
  match s with
  | [] => match word with [] => [] | _ => [word] end
  | c :: s' =>
      if is_space c
      then match word with
           | [] => split_ws_aux [] s'
           | _ => word :: split_ws_aux [] s'
           end
      else split_ws_aux (word ++ [c]) s'
  end.

Definition split_ws (s : pystr) : list pystr := split_ws_aux [] s.

Fixpoint starts_with (p s : pystr) : bool :=
  match p, s with
  | [], _ => true
  | x :: p', y :: s' => (x =? y) && starts_with p' s'
  | _ :: _, [] => false
  end.

(** [sub in s] *)
Fixpoint contains (sub s : pystr) : bool :=
  starts_with sub s ||
  match s with
  | [] => false
  | _ :: s' => contains sub s'
  end.

(** [s.replace(old, new)] for a non-empty [old]: every occurrence, left to
    right, without overlap. [skip] counts the characters of the occurrence
    just replaced that are still to be passed over. *)
Fixpoint replace_aux (old new : pystr) (skip : nat) (s : pystr) : pystr :=
  match s with
  | [] => []
  | c :: s' =>
      match skip with
      | S k => replace_aux old new k s'
      | O =>
          if starts_with old s
          then new ++ replace_aux old new (pred (length old)) s'
          else c :: replace_aux old new O s'
      end
  end.

Definition replace (old new s : pystr) : pystr := replace_aux old new O s.

(** [s[:n]] *)
Definition slice_to (n : nat) (s : pystr) : pystr := firstn n s.

(* ===================================================================== *)
(** ** Regular expressions of the section table *)
(* ===================================================================== *)

(** Every pattern of [section_patterns] is one group of literal
    alternatives, [r"(A|B|C)"], searched with [re.IGNORECASE]. Such a
    pattern is kept as the list of its alternatives. *)
Definition regex := list pystr.

Definition ascii_lower (c : N) : N :=
  if (65 <=? c) && (c <=? 90) then c + 32 else c.

Definition is_ascii_letter (c : N) : bool :=
  ((65 <=? c) && (c <=? 90)) || ((97 <=? c) && (c <=? 122)).

(** One pattern character against one subject character under
    [re.IGNORECASE] on [str]: a letter of the pattern matches both of its
    ASCII cases and the non-ASCII characters that fold to it (U+0130 and
    U+0131 for i, U+017F for s, U+212A for k); any other pattern character
    of the table (space, hyphen) matches itself only. *)
Definition char_match_ic (p c : N) : bool :=
  if is_ascii_letter p then
    let lo := ascii_lower p in
    (ascii_lower c =? lo)
    || ((lo =? 105) && ((c =? 304) || (c =? 305)))
    || ((lo =? 115) && (c =? 383))
    || ((lo =? 107) && (c =? 8490))
  else c =? p.

Fixpoint starts_with_ic (p s : pystr) : bool :=
  match p, s with
  | [], _ => true
  | x :: p', y :: s' => char_match_ic x y && starts_with_ic p' s'
  | _ :: _, [] => false
  end.

Fixpoint contains_ic (sub s : pystr) : bool :=
  starts_with_ic sub s ||
  match s with
  | [] => false
  | _ :: s' => contains_ic sub s'
  end.

(** [re.search(pattern, line, re.IGNORECASE)] as a truth value. *)
Definition re_search_ic (pattern : regex) (line : pystr) : bool :=
  existsb (fun alt => contains_ic alt line) pattern.

(* ===================================================================== *)
(** ** Dictionaries *)
(* ===================================================================== *)

(** A [dict] with string keys, in insertion order. *)
Definition dict (V : Type) := list (pystr * V).

Fixpoint dict_get {V} (k : pystr) (d : dict V) : option V :=
  match d with
  | [] => None
  | (k', v) :: d' => if str_eqb k k' then Some v else dict_get k d'
  end.

(** [d[k] = v]: an existing key keeps its place, a new one goes last. *)
Fixpoint dict_set {V} (k : pystr) (v : V) (d : dict V) : dict V :=
  match d with
  | [] => [(k, v)]
  | (k', v') :: d' =>
      if str_eqb k k' then (k, v) :: d' else (k', v') :: dict_set k v d'
  end.

(** [k in d] *)
Definition dict_mem {V} (k : pystr) (d : dict V) : bool :=
  match dict_get k d with Some _ => true | None => false end.

Definition dict_keys {V} (d : dict V) : list pystr := map fst d.

(* ===================================================================== *)
(** ** Section segmentation ([extract_structured_job_info], second half) *)
(* ===================================================================== *)

Definition JOB_DESCRIPTION := Eval cbv in lit "job_description".
Definition REQUIREMENTS := Eval cbv in lit "requirements".
Definition WHAT_WE_OFFER := Eval cbv in lit "what_we_offer".
Definition EMPLOYMENT_CONDITIONS := Eval cbv in lit "employment_conditions".
Definition APPLICATION_PROCESS := Eval cbv in lit "application_process".

(** The local [sections] dictionary as it is initialised. *)
Definition sections_init : dict pystr :=
  [ (JOB_DESCRIPTION, []); (REQUIREMENTS, []); (WHAT_WE_OFFER, []);
    (EMPLOYMENT_CONDITIONS, []); (APPLICATION_PROCESS, []) ].

(** [section_patterns], in the order of the dictionary literal. *)
Definition section_patterns : dict (list regex) :=
  [ (JOB_DESCRIPTION,
      [ [ lit "Functieomschrijving"; lit "Job description";
          lit "What will you do"; lit "Wat ga je doen" ];
        [ lit "About the role"; lit "Over de functie" ] ]);
    (REQUIREMENTS,
      [ [ lit "Functie-eisen"; lit "Job requirements"; lit "Requirements";
          lit "Wat vragen wij"; lit "What do we ask" ];
        [ lit "Your profile"; lit "Jouw profiel"; lit "Competencies";
          lit "Competenties" ] ]);
    (WHAT_WE_OFFER,
      [ [ lit "Wat bieden wij"; lit "What we offer"; lit "What do we offer";
          lit "Wat krijg je ervoor terug" ] ]);
    (EMPLOYMENT_CONDITIONS,
      [ [ lit "Arbeidsvoorwaarden"; lit "Employment conditions";
          lit "Salary"; lit "Salaris" ] ]);
    (APPLICATION_PROCESS,
      [ [ lit "Solliciteren"; lit "Apply"; lit "Application";
          lit "How to apply"; lit "Bijzonderheden" ] ]) ].

(** The two nested [for] loops with their [break]s: the first section of
    the table one of whose patterns is found in the line. *)
Fixpoint find_section_in (table : dict (list regex)) (line : pystr)
  : option pystr :=
  match table with
  | [] => None
  | (section_name, patterns) :: rest =>
      if existsb (fun pattern => re_search_ic pattern line) patterns
      then Some section_name
      else find_section_in rest line
  end.

Definition find_section (line : pystr) : option pystr :=
  find_section_in section_patterns line.

(** The variables of the loop. *)
Record seg_state := mkSeg {
  sections : dict pystr;
  current_section : pystr;
  current_content : list pystr
}.

Definition seg_init : seg_state := mkSeg sections_init JOB_DESCRIPTION [].

(** [if current_content: sections[current_section] =
    "\n".join(current_content).strip()] *)
Definition flush (st : seg_state) : dict pystr :=
  match current_content st with
  | [] => sections st
  | _ => dict_set (current_section st)
           (strip (join [NL] (current_content st))) (sections st)
  end.

(** One pass through the body of [for line in lines]. *)
Definition seg_step (st : seg_state) (line : pystr) : seg_state :=
  let line := strip line in
  if negb (truthy line) then st
  else match find_section line with
       | Some section_name => mkSeg (flush st) section_name [line]
       | None =>
           mkSeg (sections st) (current_section st)
                 (current_content st ++ [line])
       end.

(** The loop over [lines], then the flush of the last section. *)
Definition segment_lines (lines : list pystr) : dict pystr :=
  flush (fold_left seg_step lines seg_init).

(** The segmentation of [content_text]: the value stored under
    [job_info["structured_content"]]. *)
Definition segment (content_text : pystr) : dict pystr :=
  segment_lines (split_on NL content_text).

(** *** Vocabulary for the properties of the segmentation *)

(** The non-empty trimmed lines of a text: what the loop does not skip. *)
Definition trimmed_lines (lines : list pystr) : list pystr :=
  filter truthy (map strip lines).

Definition raw_lines (content_text : pystr) : list pystr :=
  trimmed_lines (split_on NL content_text).

(** The lines of one section value; the empty value has none. *)
Definition value_lines (v : pystr) : list pystr :=
  match v with
  | [] => []
  | _ => split_on NL v
  end.

(** The lines of all the sections, in the order of the dictionary. *)
Definition section_lines (d : dict pystr) : list pystr :=
  concat (map (fun kv => value_lines (snd kv)) d).

(** The runs of a list of trimmed lines: a run starts with the text (in
    [cur], with the lines [buf] already read) or with a line that matches
    a section pattern, and goes up to the next such line. *)
Fixpoint runs_from (cur : pystr) (buf : list pystr) (lines : list pystr)
  : list (pystr * list pystr) :=
  match lines with
  | [] => [(cur, buf)]
  | l :: ls =>
      match find_section l with
      | Some section_name => (cur, buf) :: runs_from section_name [l] ls
      | None => runs_from cur (buf ++ [l]) ls
      end
  end.

(** The sections of the runs that have lines, in order. *)
Definition run_sections (rs : list (pystr * list pystr)) : list pystr :=
  map fst (filter (fun r => match snd r with [] => false | _ => true end) rs).

Fixpoint distinct (names : list pystr) : bool :=
  match names with
  | [] => true
  | n :: ns => negb (existsb (str_eqb n) ns) && distinct ns
  end.

(** A string that does not begin with white space. *)
Definition starts_clean (s : pystr) : bool :=
  match s with
  | [] => true
  | c :: _ => negb (is_space c)
  end.

(** A string that [strip] leaves as it is. *)
Definition trimmedb (s : pystr) : bool :=
  starts_clean s && starts_clean (rev s).

(** A line as the loop keeps it: not empty and trimmed. *)
Definition kept_line (l : pystr) : bool := truthy l && trimmedb l.

(** A kept line that came out of [split("\n")]: it holds no newline. *)
Definition clean_line (l : pystr) : bool :=
  kept_line l && negb (existsb (N.eqb NL) l).

(** What one run does to the sections: it replaces the value of its
    section, unless it has no line. *)
Definition apply_run (d : dict pystr) (r : pystr * list pystr)
  : dict pystr :=
  match snd r with
  | [] => d
  | _ => dict_set (fst r) (join [NL] (snd r)) d
  end.

(** The lines held by one section. *)
Definition lines_at (s : pystr) (d : dict pystr) : list pystr :=
  match dict_get s d with
  | Some v => value_lines v
  | None => []
  end.

(** The section that a raw line starts, if it starts one. *)
Definition trigger (line : pystr) : option pystr :=
  find_section (strip line).

Definition no_trigger (line : pystr) : bool :=
  match trigger line with
  | None => true
  | Some _ => false
  end.

(** The line does not start section [name]. *)
Definition no_trigger_of (name line : pystr) : bool :=
  match trigger line with
  | Some s => negb (str_eqb s name)
  | None => true
  end.

(** What holds of the loop variables at every iteration: the buffer holds
    kept lines, and it is empty only before the first kept line. *)
Definition seg_inv (st : seg_state) : Prop :=
  Forall (fun l => kept_line l = true) (current_content st)
  /\ (current_content st = [] -> st = seg_init).

(** No section receives two runs of lines. *)
Definition no_section_twice (content_text : pystr) : bool :=
  distinct (run_sections (runs_from JOB_DESCRIPTION [] (raw_lines content_text))).

(* ===================================================================== *)
(** ** The extractor ([extract_structured_job_info]) *)
(* ===================================================================== *)

(** What the function asks of the parsed page: the text of each element it
    selects, [None] where [select_one] finds nothing. *)
Record soup := mkSoup {
  main_content : option pystr;
    (* select_one(".jobColumn.wide").get_text(separator="\n", strip=True) *)
  title_element : option pystr;
    (* select_one("h1").get_text(strip=True) *)
  company_info_element : option pystr;
    (* select_one(".responsiveCompanyInfo").get_text(strip=True) *)
  feature_elements : list (option pystr * option pystr);
    (* select(".jobFeatures .feature"): text of "b" and of ".description" *)
  contact_elements : list pystr
    (* select(".jobContact .contactInfo"): get_text(separator=" | ") *)
}.

(** The dictionary that the function returns. [job_details] holds the
    optional ["title"] and then ["features"]; the ["requirements"] and
    ["employment_conditions"] entries of the top level stay empty. *)
Record job_info := mkJobInfo {
  url : pystr;
  extraction_timestamp : pystr;
  company_info : dict pystr;
  job_title : option pystr;
  job_features : dict pystr;
  contact_info : dict pystr;
  raw_content : pystr;
  structured_content : dict pystr
}.

Definition K_NAME := Eval cbv in lit "name".
Definition K_LOCATION := Eval cbv in lit "location".
Definition K_POSTING_DATE := Eval cbv in lit "posting_date".
Definition K_ADDRESS := Eval cbv in lit "address".
Definition K_CONTACT_DETAILS := Eval cbv in lit "contact_details".

(** Company line, "Company · Location · Date". *)
Definition parse_company_info (company_text : pystr) : dict pystr :=
  let parts := map strip (split_on MIDDLE_DOT company_text) in
  if (3 <=? length parts)%nat then
    dict_set K_POSTING_DATE (nth 2 parts [])
      (dict_set K_LOCATION (replace (lit "Standplaats: ") [] (nth 1 parts []))
         (dict_set K_NAME (nth 0 parts []) []))
  else [].

(** The loop over the sidebar features. *)
Fixpoint collect_features (elems : list (option pystr * option pystr))
  (features : dict pystr) : dict pystr :=
  match elems with
  | [] => features
  | (Some label, Some description) :: rest =>
      collect_features rest (dict_set label description features)
  | _ :: rest => collect_features rest features
  end.

(** The loop over the contact blocks. *)
Fixpoint collect_contacts (elems : list pystr) (info : dict pystr)
  : dict pystr :=
  match elems with
  | [] => info
  | contact_text :: rest =>
      if contains (lit "Adres") contact_text then
        collect_contacts rest
          (dict_set K_ADDRESS (replace (lit "Adres | ") [] contact_text) info)
      else if contains (lit "Contactgegevens") contact_text then
        collect_contacts rest
          (dict_set K_CONTACT_DETAILS
             (replace (lit "Contactgegevens | ") [] contact_text) info)
      else collect_contacts rest info
  end.

(** [now] is the value of [time.strftime] at the call. *)
Definition extract_structured_job_info (page : soup) (page_url now : pystr)
  : option job_info :=
  match main_content page with
  | None => None
  | Some content_text =>
      Some (mkJobInfo page_url now
              (match company_info_element page with
               | Some company_text => parse_company_info company_text
               | None => []
               end)
              (title_element page)
              (collect_features (feature_elements page) [])
              (collect_contacts (contact_elements page) [])
              content_text
              (segment content_text))
  end.

(* ===================================================================== *)
(** ** Effects: heap of dictionaries, standard output, remote API *)
(* ===================================================================== *)

(** Values stored in the dictionaries that the orchestrator handles. *)
Inductive hval :=
| HStr (s : pystr)
| HInt (n : Z)
| HRef (l : nat).

Inductive exn :=
| TypeError (msg : pystr)
| KeyError (msg : pystr)
| IndexError (msg : pystr)
| AttributeError (msg : pystr)
| APIError (msg : pystr).

(** [str(e)] *)
Definition exn_str (e : exn) : pystr :=
  match e with
  | TypeError m | KeyError m | IndexError m | AttributeError m
  | APIError m => m
  end.

Inductive result (A : Type) :=
| Ok (a : A)
| Raise (e : exn).
Arguments Ok {A} a.
Arguments Raise {A} e.

(** What [client.chat.completions.create] does with one request: it raises
    (network, HTTP status, ...) or returns a completion whose [choices]
    each carry a [message.content], possibly [None]. *)
Inductive api_response :=
| ApiRaises (msg : pystr)
| ApiReturns (choices : list (option pystr)).

Record world := mkWorld {
  heap : list (dict hval);     (* the dict objects, by address *)
  stdout : list pystr;           (* the lines printed so far *)
  api_calls : list pystr         (* the prompts sent to the remote API *)
}.

Definition M (A : Type) := world -> result A * world.

Definition ret {A} (a : A) : M A := fun w => (Ok a, w).

Definition bind {A B} (m : M A) (f : A -> M B) : M B :=
  fun w => match m w with
           | (Ok a, w') => f a w'
           | (Raise e, w') => (Raise e, w')
           end.

Definition raise {A} (e : exn) : M A := fun w => (Raise e, w).

(** [try: body / except Exception as e: handler] *)
Definition try_except {A} (body : M A) (handler : exn -> M A) : M A :=
  fun w => match body w with
           | (Ok a, w') => (Ok a, w')
           | (Raise e, w') => handler e w'
           end.

Notation "x <- c1 ;; c2" := (bind c1 (fun x => c2))
  (at level 61, c1 at next level, right associativity).
Notation "c1 ;; c2" := (bind c1 (fun _ => c2))
  (at level 61, right associativity).

Definition print (line : pystr) : M unit :=
  fun w => (Ok tt, mkWorld (heap w) (stdout w ++ [line]) (api_calls w)).

Fixpoint for_each {A} (xs : list A) (body : A -> M unit) : M unit :=
  match xs with
  | [] => ret tt
  | x :: xs' => body x ;; for_each xs' body
  end.

(** A new dictionary object. *)
Definition alloc (o : dict hval) : M hval :=
  fun w => (Ok (HRef (length (heap w))),
            mkWorld (heap w ++ [o]) (stdout w) (api_calls w)).

Fixpoint list_update {A} (i : nat) (x : A) (l : list A) : list A :=
  match l, i with
  | [], _ => []
  | _ :: l', O => x :: l'
  | y :: l', S i' => y :: list_update i' x l'
  end.

Definition NOT_A_DICT := Eval cbv in lit "object is not a dict".

(** The dictionary that a value refers to. *)
Definition deref (v : hval) : M (dict hval) :=
  fun w => match v with
           | HRef l => match nth_error (heap w) l with
                       | Some o => (Ok o, w)
                       | None => (Raise (TypeError NOT_A_DICT), w)
                       end
           | _ => (Raise (TypeError NOT_A_DICT), w)
           end.

(** [v[k]] *)
Definition getitem (v : hval) (k : pystr) : M hval :=
  o <- deref v ;;
  match dict_get k o with
  | Some x => ret x
  | None => raise (KeyError k)
  end.

(** [k in v] *)
Definition has_key (k : pystr) (v : hval) : M bool :=
  match v with
  | HStr s => ret (contains k s)
  | _ => o <- deref v ;; ret (dict_mem k o)
  end.

(** [v[k] = x] *)
Definition setitem (v : hval) (k : pystr) (x : hval) : M unit :=
  o <- deref v ;;
  match v with
  | HRef l =>
      fun w => (Ok tt, mkWorld (list_update l (dict_set k x o) (heap w))
                               (stdout w) (api_calls w))
  | _ => raise (TypeError NOT_A_DICT)
  end.

(** [v.copy()]: a new dictionary with the same entries; the values that are
    references still refer to the same objects. *)
Definition dict_copy (v : hval) : M hval :=
  o <- deref v ;; alloc o.

(** [v.items()] *)
Definition items (v : hval) : M (list (pystr * hval)) := deref v.

Definition NOT_A_STR := Eval cbv in lit "object is not a str".

Definition as_str (v : hval) : M pystr :=
  match v with
  | HStr s => ret s
  | _ => raise (AttributeError NOT_A_STR)
  end.

(* ===================================================================== *)
(** ** The translator adapter ([GroqTranslator.translate_text]) *)
(* ===================================================================== *)

Definition lang_names : dict pystr :=
  [ (lit "nl", lit "Dutch"); (lit "en", lit "English");
    (lit "de", lit "German"); (lit "fr", lit "French");
    (lit "es", lit "Spanish"); (lit "it", lit "Italian") ].

(** [lang_names.get(code, code)] *)
Definition lang_name (code : pystr) : pystr :=
  match dict_get code lang_names with
  | Some name => name
  | None => code
  end.

(** The f-string of the prompt. *)
Definition make_prompt (source_name target_name text : pystr) : pystr :=
  lit "Translate the following " ++ source_name ++ lit " text to "
  ++ target_name ++ lit ". " ++ [NL]
  ++ lit "Provide only the translation, no explanations or additional text."
  ++ [NL; NL] ++ lit "Text to translate:" ++ [NL] ++ text ++ [NL; NL]
  ++ lit "Translation:".

Definition TRANSLATION_ERROR := Eval cbv in lit "Translation error: ".
Definition JOB_ERROR := Eval cbv in lit "Error translating job info: ".

Section Translator.

(** The remote service: its answer to a prompt, given the prompts it has
    received before. *)
Variable api : list pystr -> pystr -> api_response.

(** [self.client.chat.completions.create(messages=[...], model=...,
    temperature=0.1, max_tokens=1000)]: one request. *)
Definition chat_completions_create (prompt : pystr)
  : M (list (option pystr)) :=
  fun w =>
    let w' := mkWorld (heap w) (stdout w) (api_calls w ++ [prompt]) in
    match api (api_calls w) prompt with
    | ApiRaises msg => (Raise (APIError msg), w')
    | ApiReturns choices => (Ok choices, w')
    end.

(** [chat_completion.choices[0].message.content.strip()] *)
Definition first_choice_text (choices : list (option pystr)) : M pystr :=
  match choices with
  | [] => raise (IndexError (lit "list index out of range"))
  | None :: _ =>
      raise (AttributeError
               (lit "'NoneType' object has no attribute 'strip'"))
  | Some content :: _ => ret (strip content)
  end.

Definition translate_text (text source_lang target_lang : pystr)
  : M pystr :=
  if negb (truthy text) || negb (truthy (strip text)) then ret text
  else
    let source_name := lang_name source_lang in
    let target_name := lang_name target_lang in
    let prompt := make_prompt source_name target_name text in
    try_except
      (chat_completion <- chat_completions_create prompt ;;
       first_choice_text chat_completion)
      (fun e => print (TRANSLATION_ERROR ++ exn_str e) ;; ret text).

(* ===================================================================== *)
(** ** The orchestrator ([translate_structured_job_info]) *)
(* ===================================================================== *)

(** The parameters of [translate_text] after [self]. *)
Definition translate_text_params : list pystr :=
  [ lit "text"; lit "source_lang"; lit "target_lang" ].

Definition unexpected_keyword (k : pystr) : exn :=
  TypeError
    (lit "GroqTranslator.translate_text() got an unexpected keyword argument '"
     ++ k ++ lit "'").

Definition missing_text : exn :=
  TypeError
    (lit "GroqTranslator.translate_text() missing 1 required positional argument: 'text'").

(** A call [groq_translator.translate_text(k1=v1, k2=v2, ...)] with keyword
    arguments only: Python binds the keywords to the parameters of the
    function before its body runs, and raises [TypeError] for a keyword
    that names no parameter or when [text] is left without a value. *)
Definition translate_text_kw (kwargs : dict pystr) : M pystr :=
  match find (fun k => negb (existsb (str_eqb k) translate_text_params))
             (dict_keys kwargs) with
  | Some k => raise (unexpected_keyword k)
  | None =>
      match dict_get (lit "text") kwargs with
      | None => raise missing_text
      | Some text =>
          translate_text text
            (match dict_get (lit "source_lang") kwargs with
             | Some l => l | None => lit "nl" end)
            (match dict_get (lit "target_lang") kwargs with
             | Some l => l | None => lit "en" end)
      end
  end.

(** [s.translate(table)] for a [str] table: a character whose code point
    indexes into the table is replaced by the character found there. *)
Definition str_translate (s table : pystr) : pystr :=
  map (fun c => nth (N.to_nat c) table c) s.

Definition SOURCE_AUTO_TARGET_EN : dict pystr :=
  [ (lit "source", lit "auto"); (lit "target", lit "en") ].

(** [groq_translator.translate_text(source="auto", target="en")
      .translate(arg)]: the call, then the argument, then the method. *)
Definition translate_auto_en (arg : M hval) : M pystr :=
  t <- translate_text_kw SOURCE_AUTO_TARGET_EN ;;
  x <- arg ;;
  table <- as_str x ;;
  ret (str_translate t table).

Definition K_COMPANY_INFO := Eval cbv in lit "company_info".
Definition K_JOB_DETAILS := Eval cbv in lit "job_details".
Definition K_TITLE := Eval cbv in lit "title".
Definition K_FEATURES := Eval cbv in lit "features".
Definition K_STRUCTURED_CONTENT := Eval cbv in lit "structured_content".
Definition K_NAME_EN := Eval cbv in lit "name_en".
Definition K_TITLE_EN := Eval cbv in lit "title_en".
Definition K_FEATURES_TRANSLATED := Eval cbv in lit "features_translated".
Definition K_TRANSLATED_SECTIONS := Eval cbv in lit "translated_sections".
Definition K_ORIGINAL := Eval cbv in lit "original".
Definition K_TRANSLATED := Eval cbv in lit "translated".
Definition K_WORD_COUNT := Eval cbv in lit "word_count".

Definition MAX_CONTENT : nat := 3000.

(** [content[:3000] if len(content) > 3000 else content] *)
Definition content_to_translate (content : pystr) : pystr :=
  if (MAX_CONTENT <? length content)%nat
  then slice_to MAX_CONTENT content
  else content.

(** [len(content.split())] *)
Definition word_count (content : pystr) : Z :=
  Z.of_nat (length (split_ws content)).

(** The body of the loop over [features.items()]. *)
Definition translate_feature (translated_features : hval)
  (kv : pystr * hval) : M unit :=
  let (key, value) := kv in
  translated_key <- translate_text key (lit "nl") (lit "en") ;;
  translated_value <- translate_auto_en (ret value) ;;
  value_text <- as_str value ;;
  setitem translated_features
    (key ++ lit " (" ++ translated_key ++ lit ")")
    (HStr (value_text ++ lit " (" ++ translated_value ++ lit ")")).

(** The body of the loop over [structured_content.items()]. *)
Definition translate_section (translated_sections : hval)
  (kv : pystr * hval) : M unit :=
  let (section_name, content_value) := kv in
  content <- as_str content_value ;;
  if truthy (strip content) then
    translated_content <-
      translate_auto_en (ret (HStr (content_to_translate content))) ;;
    entry <- alloc [ (K_ORIGINAL, HStr content);
                     (K_TRANSLATED, HStr translated_content);
                     (K_WORD_COUNT, HInt (word_count content)) ] ;;
    setitem translated_sections section_name entry
  else ret tt.

(** The statements inside [try:]. *)
Definition translate_body (job translated_info : hval) : M hval :=
  (* company info *)
  ci <- getitem job K_COMPANY_INFO ;;
  has_name <- has_key K_NAME ci ;;
  (if has_name then
     name_en <- translate_auto_en
                  (c <- getitem job K_COMPANY_INFO ;; getitem c K_NAME) ;;
     target <- getitem translated_info K_COMPANY_INFO ;;
     setitem target K_NAME_EN (HStr name_en)
   else ret tt) ;;
  (* job title *)
  jd <- getitem job K_JOB_DETAILS ;;
  has_title <- has_key K_TITLE jd ;;
  (if has_title then
     title_en <- translate_auto_en
                   (d <- getitem job K_JOB_DETAILS ;; getitem d K_TITLE) ;;
     target <- getitem translated_info K_JOB_DETAILS ;;
     setitem target K_TITLE_EN (HStr title_en)
   else ret tt) ;;
  (* job features *)
  jd <- getitem job K_JOB_DETAILS ;;
  has_features <- has_key K_FEATURES jd ;;
  (if has_features then
     translated_features <- alloc [] ;;
     d <- getitem job K_JOB_DETAILS ;;
     features <- getitem d K_FEATURES ;;
     kvs <- items features ;;
     for_each kvs (translate_feature translated_features) ;;
     target <- getitem translated_info K_JOB_DETAILS ;;
     setitem target K_FEATURES_TRANSLATED translated_features
   else ret tt) ;;
  (* structured content sections *)
  translated_sections <- alloc [] ;;
  sc <- getitem job K_STRUCTURED_CONTENT ;;
  kvs <- items sc ;;
  for_each kvs (translate_section translated_sections) ;;
  setitem translated_info K_TRANSLATED_SECTIONS translated_sections ;;
  ret translated_info.

Definition translate_structured_job_info (job : hval) : M hval :=
  translated_info <- dict_copy job ;;
  try_except
    (translate_body job translated_info)
    (fun e => print (JOB_ERROR ++ exn_str e) ;; ret translated_info).

End Translator.

(** The object graph of a record returned by the extractor: the top-level
    dictionary and the dictionaries nested in it. *)
Definition str_values (d : dict pystr) : dict hval :=
  map (fun kv => (fst kv, HStr (snd kv))) d.

Definition alloc_job_info (j : job_info) : M hval :=
  ci <- alloc (str_values (company_info j)) ;;
  features <- alloc (str_values (job_features j)) ;;
  jd <- alloc ((match job_title j with
                | Some t => [(K_TITLE, HStr t)]
                | None => []
                end) ++ [(K_FEATURES, features)]) ;;
  req <- alloc [] ;;
  ec <- alloc [] ;;
  contact <- alloc (str_values (contact_info j)) ;;
  sc <- alloc (str_values (structured_content j)) ;;
  alloc [ (lit "url", HStr (url j));
          (lit "extraction_timestamp", HStr (extraction_timestamp j));
          (K_COMPANY_INFO, ci);
          (K_JOB_DETAILS, jd);
          (lit "requirements", req);
          (lit "employment_conditions", ec);
          (lit "contact_info", contact);
          (lit "raw_content", HStr (raw_content j));
          (K_STRUCTURED_CONTENT, sc) ].

Definition empty_world : world := mkWorld [] [] [].

(** The dictionary stored at a reference, if any. *)
Definition lookup (w : world) (v : hval) : option (dict hval) :=
  match v with
  | HRef l => nth_error (heap w) l
  | _ => None
  end.

(** The dictionary reached from [v] under key [k]. *)
Definition lookup_in (w : world) (v : hval) (k : pystr)
  : option (dict hval) :=
  match lookup w v with
  | Some o => match dict_get k o with
              | Some x => lookup w x
              | None => None
              end
  | None => None
  end.

(** [k in v[k1]], read in world [w]. *)
Definition nested_has (w : world) (v : hval) (k1 k : pystr) : bool :=
  match lookup_in w v k1 with
  | Some o => dict_mem k o
  | None => false
  end.

(** [k in v], read in world [w]. *)
Definition top_has (w : world) (v : hval) (k : pystr) : bool :=
  match lookup w v with
  | Some o => dict_mem k o
  | None => false
  end.

(** The responses on which the adapter cannot produce a translation: the
    request raised, there is no first choice, or it has no content. *)
Definition remote_fails (r : api_response) : bool :=
  match r with
  | ApiRaises _ => true
  | ApiReturns [] => true
  | ApiReturns (None :: _) => true
  | ApiReturns (Some _ :: _) => false
  end.

(** The pipeline of [analyze_job_with_structure] after the page is
    parsed: the record is built, then translated. Returns the record of
    the extractor and the record of the orchestrator. *)
Definition extract_then_translate
  (api : list pystr -> pystr -> api_response) (j : job_info)
  : M (hval * hval) :=
  job <- alloc_job_info j ;;
  translated <- translate_structured_job_info api job ;;
  ret (job, translated).

(* ===================================================================== *)
(** ** Vocabulary for the properties of the extractor *)
(* ===================================================================== *)

(** The feature blocks that have both a label and a description. *)
Definition complete_blocks (elems : list (option pystr * option pystr))
  : list (pystr * pystr) :=
  flat_map (fun e => match e with
                     | (Some label, Some description) => [(label, description)]
                     | _ => []
                     end) elems.

(** The last entry of a list of pairs under a key. *)
Definition last_value (k : pystr) (kvs : list (pystr * pystr))
  : option pystr :=
  option_map snd (find (fun kv => str_eqb k (fst kv)) (rev kvs)).

(** The last element of a list that satisfies a test. *)
Definition find_last {A} (f : A -> bool) (l : list A) : option A :=
  find f (rev l).

Definition is_address (contact_text : pystr) : bool :=
  contains (lit "Adres") contact_text.

Definition is_contact_details (contact_text : pystr) : bool :=
  negb (contains (lit "Adres") contact_text)
  && contains (lit "Contactgegevens") contact_text.

(* ===================================================================== *)
(** ** Vocabulary for the properties of the orchestrator *)
(* ===================================================================== *)

(** The objects of a record in a heap that held nothing before: the
    nested dictionaries at addresses 0 to 6, the record itself at 7. *)
Definition job_details_dict (j : job_info) : dict hval :=
  (match job_title j with
   | Some t => [(K_TITLE, HStr t)]
   | None => []
   end) ++ [(K_FEATURES, HRef 1)].

Definition job_top_dict (j : job_info) : dict hval :=
  [ (lit "url", HStr (url j));
    (lit "extraction_timestamp", HStr (extraction_timestamp j));
    (K_COMPANY_INFO, HRef 0);
    (K_JOB_DETAILS, HRef 2);
    (lit "requirements", HRef 3);
    (lit "employment_conditions", HRef 4);
    (lit "contact_info", HRef 5);
    (lit "raw_content", HStr (raw_content j));
    (K_STRUCTURED_CONTENT, HRef 6) ].

Definition job_heap (j : job_info) : list (dict hval) :=
  [ str_values (company_info j);
    str_values (job_features j);
    job_details_dict j;
    [];
    [];
    str_values (contact_info j);
    str_values (structured_content j);
    job_top_dict j ].

(** The line that the handler of the orchestrator prints for the keyword
    call. *)
Definition JOB_ERROR_LINE : pystr :=
  JOB_ERROR ++ exn_str (unexpected_keyword (lit "source")).

(** The record has a company name or a job title. *)
Definition has_name_or_title (j : job_info) : bool :=
  dict_mem K_NAME (company_info j)
  || match job_title j with Some _ => true | None => false end.

(** The dictionary under [job_details] after the orchestrator has stored
    the (empty) translated features in it. *)
Definition job_details_with_translation : dict hval :=
  [(K_FEATURES, HRef 1); (K_FEATURES_TRANSLATED, HRef 9)].

(** The record gives the orchestrator nothing to translate: no name, no
    title, no feature, and only blank sections. *)
Definition nothing_to_translate (j : job_info) : bool :=
  negb (has_name_or_title j)
  && match job_features j with [] => true | _ => false end
  && forallb (fun kv => negb (truthy (strip (snd kv))))
             (structured_content j).

(** A section with nothing to translate: [content.strip()] is empty. *)
Definition blank_section (kv : pystr * pystr) : bool :=
  negb (truthy (strip (snd kv))).

(* ===================================================================== *)
(** ** The report ([print_structured_job_info]) *)
(* ===================================================================== *)

(** [str(n)] for an integer. *)
Fixpoint uint_digits (u : Decimal.uint) : pystr :=
  match u with
  | Decimal.Nil => []
  | Decimal.D0 u' => 48 :: uint_digits u'
  | Decimal.D1 u' => 49 :: uint_digits u'
  | Decimal.D2 u' => 50 :: uint_digits u'
  | Decimal.D3 u' => 51 :: uint_digits u'
  | Decimal.D4 u' => 52 :: uint_digits u'
  | Decimal.D5 u' => 53 :: uint_digits u'
  | Decimal.D6 u' => 54 :: uint_digits u'
  | Decimal.D7 u' => 55 :: uint_digits u'
  | Decimal.D8 u' => 56 :: uint_digits u'
  | Decimal.D9 u' => 57 :: uint_digits u'
  end.

Definition str_of_N (n : N) : pystr := uint_digits (N.to_uint n).

Definition str_of_nat (n : nat) : pystr := str_of_N (N.of_nat n).

Definition str_of_Z (z : Z) : pystr :=
  match z with
  | Z0 => str_of_N 0
  | Zpos p => str_of_N (Npos p)
  | Zneg p => 45 :: str_of_N (Npos p)
  end.

(** [f"{s:15}"] and the like: a string padded with spaces on the right. *)
Definition pad_right (width : nat) (s : pystr) : pystr :=
  s ++ repeat 32 (width - length s).

(** ["=" * n] and ["-" * n] *)
Definition rule_eq (n : nat) : pystr := repeat 61 n.
Definition rule_dash (n : nat) : pystr := repeat 45 n.

(** One entry of [translated_sections]. *)
Record section_data := mkSectionData {
  sd_original : pystr;
  sd_translated : pystr;
  sd_word_count : Z
}.

(** The record that the report is printed from, as the orchestrator can
    leave it: the entries of [job_details] are the two titles and the two
    feature dictionaries, each of them optional. *)
Record report := mkReport {
  rp_url : pystr;
  rp_extraction_timestamp : pystr;
  rp_company_info : dict pystr;
  rp_title : option pystr;
  rp_title_en : option pystr;
  rp_features : option (dict pystr);
  rp_features_translated : option (dict pystr);
  rp_contact_info : dict pystr;
  rp_raw_content : pystr;
  rp_translated_sections : option (dict section_data)
}.

Definition section_titles : dict pystr :=
  [ (JOB_DESCRIPTION, [127919] ++ lit " JOB DESCRIPTION");
    (REQUIREMENTS, [9989] ++ lit " REQUIREMENTS & QUALIFICATIONS");
    (WHAT_WE_OFFER, [127873] ++ lit " WHAT WE OFFER");
    (EMPLOYMENT_CONDITIONS, [128176] ++ lit " EMPLOYMENT CONDITIONS");
    (APPLICATION_PROCESS, [128221] ++ lit " APPLICATION PROCESS") ].

(** [bool(d)] for a dictionary. *)
Definition nonempty_dict {V} (d : dict V) : bool :=
  match d with [] => false | _ => true end.

(** The entries of [translated_sections] whose translation is not blank. *)
Definition sections_with_content (ts : dict section_data) : nat :=
  length (filter (fun kv => truthy (strip (sd_translated (snd kv)))) ts).

Definition MISSING_TRANSLATED_SECTIONS : exn :=
  KeyError (lit "'translated_sections'").

Section Report.

(** [str.upper] *)
Variable py_upper : pystr -> pystr.

Definition print_title (r : report) : M unit :=
  match rp_title r with
  | Some title =>
      print ([10; 128188] ++ lit " JOB TITLE") ;;
      print (rule_dash 40) ;;
      print (lit "Original: " ++ title) ;;
      match rp_title_en r with
      | Some title_en => print (lit "English:  " ++ title_en)
      | None => ret tt
      end
  | None => ret tt
  end.

Definition print_company (company_info : dict pystr) : M unit :=
  print ([10; 127970] ++ lit " COMPANY INFORMATION") ;;
  print (rule_dash 40) ;;
  (match dict_get K_NAME company_info with
   | Some name =>
       print (lit "Company:  " ++ name) ;;
       match dict_get K_NAME_EN company_info with
       | Some name_en => print (lit "         (" ++ name_en ++ lit ")")
       | None => ret tt
       end
   | None => ret tt
   end) ;;
  (match dict_get K_LOCATION company_info with
   | Some location => print (lit "Location: " ++ location)
   | None => ret tt
   end) ;;
  match dict_get K_POSTING_DATE company_info with
  | Some posting_date => print (lit "Posted:   " ++ posting_date)
  | None => ret tt
  end.

Definition print_features (r : report) : M unit :=
  if match rp_features_translated r with
     | Some d => nonempty_dict d
     | None => false
     end
  then
    print ([10; 127991; 65039] ++ lit "  JOB FEATURES (TRANSLATED)") ;;
    print (rule_dash 40) ;;
    for_each (match rp_features_translated r with
              | Some d => d | None => [] end)
      (fun kv => print (fst kv) ;;
                 print (lit "    " ++ snd kv) ;;
                 print [])
  else if match rp_features r with
          | Some d => nonempty_dict d
          | None => false
          end
  then
    print ([10; 127991; 65039] ++ lit "  JOB FEATURES (ORIGINAL)") ;;
    print (rule_dash 40) ;;
    for_each (match rp_features r with Some d => d | None => [] end)
      (fun kv => print (pad_right 15 (fst kv) ++ lit ": " ++ snd kv))
  else ret tt.

Definition print_contact (contact_info : dict pystr) : M unit :=
  if nonempty_dict contact_info then
    print ([10; 128222] ++ lit " CONTACT INFORMATION") ;;
    print (rule_dash 40) ;;
    for_each contact_info
      (fun kv => if truthy (snd kv)
                 then print (fst kv ++ lit ": " ++ snd kv)
                 else ret tt)
  else ret tt.

Definition print_section (kv : pystr * section_data) : M unit :=
  let (section_name, section_data) := kv in
  if truthy (strip (sd_translated section_data)) then
    let title :=
      match dict_get section_name section_titles with
      | Some t => t
      | None => replace (lit "_") (lit " ") (py_upper section_name)
      end in
    print ([NL] ++ title) ;;
    print (rule_dash 60) ;;
    print ([128202] ++ lit " Word Count: "
           ++ str_of_Z (sd_word_count section_data) ++ lit " words") ;;
    print ([128221] ++ lit " Content:") ;;
    print (sd_translated section_data) ;;
    print []
  else ret tt.

Definition print_sections (r : report) : M unit :=
  match rp_translated_sections r with
  | Some ts =>
      print ([10; 128196] ++ lit " DETAILED JOB CONTENT (TRANSLATED)") ;;
      print (rule_eq 80) ;;
      for_each ts print_section
  | None => ret tt
  end.

Definition print_statistics (r : report) : M unit :=
  print ([10; 128202] ++ lit " EXTRACTION STATISTICS") ;;
  print (rule_dash 40) ;;
  print (lit "Total words extracted: "
         ++ str_of_nat (length (split_ws (rp_raw_content r)))) ;;
  match rp_translated_sections r with
  | None => raise MISSING_TRANSLATED_SECTIONS
  | Some ts =>
      print (lit "Sections identified: "
             ++ str_of_nat (sections_with_content ts)) ;;
      print ([NL] ++ rule_eq 80) ;;
      print ([9989] ++ lit " ANALYSIS COMPLETE") ;;
      print (rule_eq 80)
  end.

Definition print_structured_job_info (r : report) : M unit :=
  print ([NL] ++ rule_eq 80) ;;
  print ([127919] ++ lit " STRUCTURED JOB ANALYSIS REPORT") ;;
  print (rule_eq 80) ;;
  print ([10; 128203] ++ lit " BASIC INFORMATION") ;;
  print (rule_dash 40) ;;
  print ([128279] ++ lit " URL: " ++ rp_url r) ;;
  print ([9200] ++ lit " Extracted: " ++ rp_extraction_timestamp r) ;;
  print_title r ;;
  print_company (rp_company_info r) ;;
  print_features r ;;
  print_contact (rp_contact_info r) ;;
  print_sections r ;;
  print_statistics r.

End Report.

(** *** Reading a record back from the heap *)

(** A dictionary all of whose values are strings. *)
Fixpoint str_dict (d : dict hval) : option (dict pystr) :=
  match d with
  | [] => Some []
  | (k, HStr s) :: d' =>
      match str_dict d' with
      | Some r => Some ((k, s) :: r)
      | None => None
      end
  | _ => None
  end.

Definition read_str (d : dict hval) (k : pystr) : option pystr :=
  match dict_get k d with
  | Some (HStr s) => Some s
  | _ => None
  end.

(** The string dictionary under key [k], if the key is there. *)
Definition read_opt_dict (w : world) (d : dict hval) (k : pystr)
  : option (option (dict pystr)) :=
  match dict_get k d with
  | None => Some None
  | Some v =>
      match lookup w v with
      | Some o => option_map Some (str_dict o)
      | None => None
      end
  end.

Definition read_opt_str (d : dict hval) (k : pystr)
  : option (option pystr) :=
  match dict_get k d with
  | None => Some None
  | Some (HStr s) => Some (Some s)
  | Some _ => None
  end.

Definition read_section_data (w : world) (v : hval) : option section_data :=
  match lookup w v with
  | Some o =>
      match dict_get K_ORIGINAL o, dict_get K_TRANSLATED o,
            dict_get K_WORD_COUNT o with
      | Some (HStr a), Some (HStr b), Some (HInt n) =>
          Some (mkSectionData a b n)
      | _, _, _ => None
      end
  | None => None
  end.

Fixpoint read_sections (w : world) (d : dict hval)
  : option (dict section_data) :=
  match d with
  | [] => Some []
  | (k, v) :: d' =>
      match read_section_data w v, read_sections w d' with
      | Some sd, Some r => Some ((k, sd) :: r)
      | _, _ => None
      end
  end.

(** The record at [v], when it has the shape that the extractor and the
    orchestrator give it. *)
Definition read_report (w : world) (v : hval) : option report :=
  match lookup w v with
  | None => None
  | Some top =>
      match read_str top (lit "url"),
            read_str top (lit "extraction_timestamp"),
            read_opt_dict w top K_COMPANY_INFO,
            lookup_in w v K_JOB_DETAILS,
            read_opt_dict w top (lit "contact_info"),
            read_str top (lit "raw_content") with
      | Some u, Some ts, Some (Some ci), Some jd, Some (Some contact),
        Some raw =>
          match read_opt_str jd K_TITLE, read_opt_str jd K_TITLE_EN,
                read_opt_dict w jd K_FEATURES,
                read_opt_dict w jd K_FEATURES_TRANSLATED,
                match dict_get K_TRANSLATED_SECTIONS top with
                | None => Some None
                | Some x =>
                    match lookup w x with
                    | Some o => option_map Some (read_sections w o)
                    | None => None
                    end
                end with
          | Some t, Some te, Some f, Some ft, Some sections =>
              Some (mkReport u ts ci t te f ft contact raw sections)
          | _, _, _, _, _ => None
          end
      | _, _, _, _, _, _ => None
      end
  end.

(** The record that the report is printed from after the orchestrator has
    run on [j]: no translated title, and the translated features and
    sections as given. *)
Definition report_of (j : job_info) (ft : option (dict pystr))
  (ts : option (dict section_data)) : report :=
  mkReport (url j) (extraction_timestamp j) (company_info j) (job_title j)
    None (Some (job_features j)) ft (contact_info j) (raw_content j) ts.

(** A computation that only prints: from any world it ends with [res],
    having added [lines] to the output and nothing else. *)
Definition outcome {A} (m : M A) (res : result A) (lines : list pystr)
  : Prop :=
  forall w, m w = (res, mkWorld (heap w) (stdout w ++ lines) (api_calls w)).

(* ===================================================================== *)
(** ** The environment file ([load_env_file]) *)
(* ===================================================================== *)

(** [s.split(sep, 1)] for a one-character separator, when [sep] occurs:
    what is before the first occurrence and what is after it. *)
Fixpoint split_first (sep : N) (s : pystr) : option (pystr * pystr) :=
  match s with
  | [] => None
  | c :: s' =>
      if c =? sep then Some ([], s')
      else match split_first sep s' with
           | Some (a, b) => Some (c :: a, b)
           | None => None
           end
  end.

(** How the loading can stop early. *)
Inductive load_error :=
| UnpackError            (* ValueError: not enough values to unpack *)
| EnvironError (msg : pystr).   (* raised by os.environ[key] = value *)

Definition EQUALS : N := 61.
Definition HASH : N := 35.

Section LoadEnv.

(** [os.environ[key] = value]: the new environment, or the message of the
    exception that the platform raises for this name or value. *)
Variable environ_set : dict pystr -> pystr -> pystr -> pystr + dict pystr.

(** The loop [for line in f], [f] being the lines of the file as the
    iteration gives them (with their newline). Returns the environment as
    the loop leaves it, and the exception if it was left by one. *)
Fixpoint load_env_lines (lines : list pystr) (environ : dict pystr)
  : option load_error * dict pystr :=
  match lines with
  | [] => (None, environ)
  | line :: rest =>
      if truthy (strip line) && negb (starts_with [HASH] line) then
        match split_first EQUALS (strip line) with
        | None => (Some UnpackError, environ)
        | Some (key, value) =>
            match environ_set environ key value with
            | inl msg => (Some (EnvironError msg), environ)
            | inr environ' => load_env_lines rest environ'
            end
        end
      else load_env_lines rest environ
  end.

(** [load_env_file()]: [env_file] is the content of the [.env] file, [None]
    when [env_path.exists()] is false. *)
Definition load_env_file (env_file : option (list pystr))
  (environ : dict pystr) : option load_error * dict pystr :=
  match env_file with
  | Some lines => load_env_lines lines environ
  | None => (None, environ)
  end.

End LoadEnv.

(** [os.getenv("GROQ_API_KEY", "your-groq-api-key-here")] *)
Definition GROQ_API_KEY (environ : dict pystr) : pystr :=
  match dict_get (lit "GROQ_API_KEY") environ with
  | Some v => v
  | None => lit "your-groq-api-key-here"
  end.

(** A line that the loop passes over: blank, or starting with "#". *)
Definition skipped_line (line : pystr) : bool :=
  negb (truthy (strip line)) || starts_with [HASH] line.

(* ===================================================================== *)
(** ** The listing scrapers ([stress_test_translation],
       [scrape_multiple_pages]) *)
(* ===================================================================== *)

(** A job card of a listing page: an [h2] parent that contains an
    [a.jobTitle]; its text, [get_text(separator=" | ", strip=True)], and
    the text of its title link. *)
Record job_card := mkCard {
  card_text : pystr;
  card_title : pystr
}.

(** What fetching and parsing a listing page gives: the request raises a
    [RequestException] (from [get] or [raise_for_status]), something else
    raises, or the page is parsed and has these job cards. *)
Inductive page_result :=
| RequestFailed (msg : pystr)
| PageFailed (msg : pystr)
| PageCards (cards : list job_card).

Section Scrapers.

Variable api : list pystr -> pystr -> api_response.

(** The listing page behind a URL. *)
Variable fetch : pystr -> page_result.

(** *** [stress_test_translation] *)

(** One pass through the loop over [enumerate(job_cards)]; [i] is the
    index and [translated_count] the counter, which is returned. *)
Definition stress_card (i : nat) (card : job_card) (translated_count : nat)
  : M nat :=
  let original_text := card_text card in
  if negb (truthy original_text) then ret translated_count
  else
    print (lit "--- " ++ [27491; 22312; 22788; 29702; 31532] ++ lit " "
           ++ str_of_nat (i + 1) ++ lit " " ++ [26465]
           ++ lit " (Processing item " ++ str_of_nat (i + 1)
           ++ lit ") ---") ;;
    print ([21407; 22987; 33655; 20848; 35821; 20869; 23481]
           ++ lit " (Original Dutch):" ++ [10] ++ original_text ++ [10]) ;;
    count <- try_except
      (translated_text <-
         translate_text api original_text (lit "nl") (lit "en") ;;
       print ([32763; 35793; 21518; 33521; 35821; 20869; 23481]
              ++ lit " (Translated English):" ++ [10] ++ translated_text
              ++ [10]) ;;
       ret (S translated_count))
      (fun e =>
         print ([32763; 35793; 31532] ++ lit " " ++ str_of_nat (i + 1)
                ++ lit " " ++ [26465; 26102; 20986; 38169]
                ++ lit " (Error translating item " ++ str_of_nat (i + 1)
                ++ lit "): " ++ exn_str e) ;;
         ret translated_count) ;;
    print (rule_dash 50) ;;
    ret count.

Fixpoint stress_cards (i : nat) (cards : list job_card)
  (translated_count : nat) : M nat :=
  match cards with
  | [] => ret translated_count
  | card :: rest =>
      count <- stress_card i card translated_count ;;
      stress_cards (S i) rest count
  end.

Definition stress_test_translation (page_url : pystr) : M unit :=
  match fetch page_url with
  | RequestFailed msg =>
      print (lit "An error occurred during the HTTP request: " ++ msg)
  | PageFailed msg =>
      print (lit "An unexpected error occurred: " ++ msg)
  | PageCards [] =>
      print (lit "Could not find any job cards on the page using the new H2 strategy.") ;;
      print ([20351; 29992; 26032; 30340] ++ lit "H2"
             ++ [31574; 30053; 22312; 39029; 38754; 19978; 25214; 19981;
                 21040; 20219; 20309; 25307; 32856; 20449; 24687; 21345;
                 29255; 12290])
  | PageCards job_cards =>
      print (lit "--- Stress Test: Scrape and Translate Full Page (Corrected Strategy) ---") ;;
      print ([25214; 21040; 20102] ++ lit " "
             ++ str_of_nat (length job_cards) ++ lit " "
             ++ [26465; 25307; 32856; 20449; 24687; 12290; 29616; 22312;
                 24320; 22987; 36880; 26465; 32763; 35793] ++ lit "...") ;;
      print (lit "Found " ++ str_of_nat (length job_cards)
             ++ lit " job postings. Starting translation for each...") ;;
      print (rule_dash 50) ;;
      translated_count <- stress_cards 0 job_cards 0 ;;
      print (lit "--- " ++ [27979; 35797; 23436; 25104]
             ++ lit " (Test Complete) ---") ;;
      print ([24635; 20849; 25214; 21040] ++ lit " "
             ++ str_of_nat (length job_cards) ++ lit " "
             ++ [26465; 20449; 24687; 65292; 25104; 21151; 32763; 35793]
             ++ lit " " ++ str_of_nat translated_count ++ lit " "
             ++ [26465; 12290]) ;;
      print (lit "Found " ++ str_of_nat (length job_cards)
             ++ lit " items in total, successfully translated "
             ++ str_of_nat translated_count ++ lit " of them.")
  end.

(** *** [scrape_multiple_pages] *)

(** One pass through the loop over the cards of a page. *)
Definition translate_title (card : job_card) (translated : nat) : M nat :=
  if negb (truthy (card_text card)) then ret translated
  else
    let job_title := card_title card in
    try_except
      (translated_title <-
         translate_text api job_title (lit "nl") (lit "en") ;;
       print (lit "  - Original: " ++ job_title ++ lit " -> Translated: "
              ++ translated_title) ;;
       ret (S translated))
      (fun e =>
         print (lit "    - Could not translate job title: " ++ job_title
                ++ lit ", Error: " ++ exn_str e) ;;
         ret translated).

Fixpoint translate_titles (cards : list job_card) (translated : nat)
  : M nat :=
  match cards with
  | [] => ret translated
  | card :: rest =>
      count <- translate_title card translated ;;
      translate_titles rest count
  end.

Definition paginated_url (base_url : pystr) (page_num : nat) : pystr :=
  base_url ++ lit "&page=" ++ str_of_nat page_num.

(** The loop over [range(1, num_pages_to_scrape + 1)], from the pages that
    are left; returns [total_jobs_found] and [total_jobs_translated]. *)
Fixpoint scrape_pages (base_url : pystr) (page_nums : list nat)
  (total_jobs_found total_jobs_translated : nat) : M (nat * nat) :=
  match page_nums with
  | [] => ret (total_jobs_found, total_jobs_translated)
  | page_num :: rest =>
      print ([10] ++ lit "--- Scraping Page " ++ str_of_nat page_num
             ++ lit " ---") ;;
      print (lit "URL: " ++ paginated_url base_url page_num) ;;
      print (rule_dash 50) ;;
      match fetch (paginated_url base_url page_num) with
      | RequestFailed msg =>
          print (lit "An error occurred during the HTTP request for page "
                 ++ str_of_nat page_num ++ lit ": " ++ msg) ;;
          scrape_pages base_url rest total_jobs_found total_jobs_translated
      | PageFailed msg =>
          print (lit "An unexpected error occurred on page "
                 ++ str_of_nat page_num ++ lit ": " ++ msg) ;;
          scrape_pages base_url rest total_jobs_found total_jobs_translated
      | PageCards [] =>
          print (lit "No job cards found on page " ++ str_of_nat page_num
                 ++ lit ". This could be the last page.") ;;
          ret (total_jobs_found, total_jobs_translated)
      | PageCards job_cards =>
          print (lit "Found " ++ str_of_nat (length job_cards)
                 ++ lit " jobs on this page.") ;;
          translated <- translate_titles job_cards total_jobs_translated ;;
          scrape_pages base_url rest
            (total_jobs_found + length job_cards) translated
      end
  end.

Definition scrape_multiple_pages (base_url : pystr)
  (num_pages_to_scrape : Z) : M unit :=
  print (lit "--- Starting Scraper for " ++ str_of_Z num_pages_to_scrape
         ++ lit " Pages ---") ;;
  totals <- scrape_pages base_url (seq 1 (Z.to_nat num_pages_to_scrape))
              0 0 ;;
  print ([10] ++ lit "--- Multi-Page Scraping Complete ---") ;;
  print (lit "Total pages scraped: " ++ str_of_Z num_pages_to_scrape) ;;
  print (lit "Total jobs found: " ++ str_of_nat (fst totals)) ;;
  print (lit "Total jobs successfully translated: "
         ++ str_of_nat (snd totals)).

(** *** Vocabulary for their properties *)

(** The cards that the scraper reads: those of the pages up to the first
    page without cards, the pages that fail being passed over. *)
Fixpoint scraped_cards (base_url : pystr) (page_nums : list nat)
  : list job_card :=
  match page_nums with
  | [] => []
  | page_num :: rest =>
      match fetch (paginated_url base_url page_num) with
      | PageCards [] => []
      | PageCards job_cards => job_cards ++ scraped_cards base_url rest
      | _ => scraped_cards base_url rest
      end
  end.

End Scrapers.

(** The cards that have text. *)
Definition cards_with_text (cards : list job_card) : list job_card :=
  filter (fun c => truthy (card_text c)) cards.

(** The requests that translating a list of texts makes: one for each
    text that is not blank. *)
Definition requests_for (texts : list pystr) : list pystr :=
  map (make_prompt (lit "Dutch") (lit "English"))
      (filter (fun t => truthy (strip t)) texts).

(** [w'] is [w] after some printing and some requests: the heap is the
    same, [out] has been printed and [calls] have been sent. *)
Definition grows (w w' : world) (out calls : list pystr) : Prop :=
  heap w' = heap w
  /\ stdout w' = stdout w ++ out
  /\ api_calls w' = api_calls w ++ calls.

(** From any world, [m] returns a value that satisfies [P], having sent
    the requests [calls], printed something and left the heap alone. *)
Definition yields {A} (m : M A) (P : A -> Prop) (calls : list pystr)
  : Prop :=
  forall w, exists a w' out,
    m w = (Ok a, w') /\ P a /\ grows w w' out calls.

(** The requests for the titles of the cards that have text. *)
Definition title_requests (cards : list job_card) : list pystr :=
  requests_for (map card_title (cards_with_text cards)).

(* ===================================================================== *)
(** ** The large-scale test ([run_large_scale_translation_test]) *)
(* ===================================================================== *)

(** How the [while] loop is left: by its condition or its [break], by an
    exception that no handler of the function catches, or not yet, after
    the number of passes that was allowed. *)
Inductive loop_end (T : Type) :=
| Ended (count : nat) (times : list (T * T))
| Escaped (msg : pystr)
| StillRunning (page_num count : nat).
Arguments Ended {T} count times.
Arguments Escaped {T} msg.
Arguments StillRunning {T} page_num count.

Definition SOURCE_NL_TARGET_EN : dict pystr :=
  [ (lit "source", lit "nl"); (lit "target", lit "en") ].

(** A page on which the loop does not stop: the request failed with a
    [RequestException], or the page has job cards. *)
Definition page_goes_on (r : page_result) : bool :=
  match r with
  | RequestFailed _ => true
  | PageFailed _ => false
  | PageCards [] => false
  | PageCards (_ :: _) => true
  end.

Section LargeScale.

Variable api : list pystr -> pystr -> api_response.
Variable fetch : pystr -> page_result.

(** The clock: the reading of [time.time()] at a point of the run, what
    [f"{t1 - t0:.2f}"] prints for two readings, and what it prints for the
    least, the greatest and the mean of the differences of a list of pairs
    of readings. *)
Variable T : Type.
Variable time_time : world -> T.
Variable fmt_seconds : T -> T -> pystr.
Variable fmt_min fmt_max fmt_avg : list (T * T) -> pystr.

Definition clock : M T := fun w => (Ok (time_time w), w).

(** The loop over the cards of one page; returns [translated_jobs_count]
    and [all_translation_times] (as pairs of readings). *)
Fixpoint large_scale_cards (max_jobs_to_translate : Z)
  (cards : list job_card) (count : nat) (times : list (T * T))
  : M (nat * list (T * T)) :=
  match cards with
  | [] => ret (count, times)
  | card :: rest =>
      if (max_jobs_to_translate <=? Z.of_nat count)%Z
      then ret (count, times)
      else if negb (truthy (card_text card))
      then large_scale_cards max_jobs_to_translate rest count times
      else
        translation_start_time <- clock ;;
        state <- try_except
          (t <- translate_text_kw api SOURCE_NL_TARGET_EN ;;
           let translated_text := str_translate t (card_text card) in
           translation_end_time <- clock ;;
           print (lit "Job " ++ str_of_nat (S count) ++ lit "/"
                  ++ str_of_Z max_jobs_to_translate ++ lit ": OK ("
                  ++ fmt_seconds translation_start_time
                       translation_end_time
                  ++ lit "s)") ;;
           ret (S count,
                times ++ [(translation_start_time, translation_end_time)]))
          (fun e =>
             print (lit "Job " ++ str_of_nat (count + 1)
                    ++ lit ": FAILED. Error: " ++ exn_str e) ;;
             ret (count, times)) ;;
        large_scale_cards max_jobs_to_translate rest
          (fst state) (snd state)
  end.

(** The [while] loop, for at most [fuel] passes. *)
Fixpoint large_scale_pages (fuel : nat) (base_url : pystr)
  (max_jobs_to_translate : Z) (page_num count : nat)
  (times : list (T * T)) : M (loop_end T) :=
  if negb (Z.of_nat count <? max_jobs_to_translate)%Z
  then ret (Ended count times)
  else
    match fuel with
    | O => ret (StillRunning page_num count)
    | S fuel' =>
        print ([10] ++ lit "--- Scraping Page " ++ str_of_nat page_num
               ++ lit " (Translated " ++ str_of_nat count ++ lit "/"
               ++ str_of_Z max_jobs_to_translate ++ lit ") ---") ;;
        match fetch (paginated_url base_url page_num) with
        | RequestFailed msg =>
            print (lit "Failed to fetch page " ++ str_of_nat page_num
                   ++ lit ": " ++ msg) ;;
            large_scale_pages fuel' base_url max_jobs_to_translate
              (S page_num) count times
        | PageFailed msg => ret (Escaped msg)
        | PageCards [] =>
            print (lit "No more job cards found. Ending test.") ;;
            ret (Ended count times)
        | PageCards job_cards =>
            state <- large_scale_cards max_jobs_to_translate job_cards
                       count times ;;
            large_scale_pages fuel' base_url max_jobs_to_translate
              (S page_num) (fst state) (snd state)
        end
    end.

Definition run_large_scale_translation_test (fuel : nat)
  (base_url : pystr) (max_jobs_to_translate : Z) : M (loop_end T) :=
  print (lit "--- Starting Large-Scale Test: Translating "
         ++ str_of_Z max_jobs_to_translate
         ++ lit " Full Job Postings ---") ;;
  start_time <- clock ;;
  e <- large_scale_pages fuel base_url max_jobs_to_translate 1 0 [] ;;
  match e with
  | Ended count times =>
      end_time <- clock ;;
      print ([10] ++ lit "--- Test Complete: Performance Report ---") ;;
      print (lit "Total jobs translated: " ++ str_of_nat count) ;;
      print (lit "Total time taken: " ++ fmt_seconds start_time end_time
             ++ lit " seconds") ;;
      (match times with
       | [] => print (lit "No successful translations to report on.")
       | _ =>
           print (lit "Shortest translation time: " ++ fmt_min times
                  ++ lit " seconds") ;;
           print (lit "Longest translation time: " ++ fmt_max times
                  ++ lit " seconds") ;;
           print (lit "Average translation time: " ++ fmt_avg times
                  ++ lit " seconds")
       end) ;;
      ret e
  | _ => ret e
  end.

End LargeScale.

(** The loop has translated nothing: it has ended with no job counted and
    no time recorded, or it was left by an exception, or it is still
    running with no job counted. *)
Definition nothing_counted {T} (e : loop_end T) : Prop :=
  e = Ended 0 [] \/ (exists msg, e = Escaped msg)
  \/ (exists page_num, e = StillRunning page_num 0).

(* ===================================================================== *)
(** ** The test script ([test_groq_translation.py]) *)
(* ===================================================================== *)



Section TestScript.

Variable api : list pystr -> pystr -> api_response.




End TestScript.



(* ===================================================================== *)
(** * Properties *)
(* ===================================================================== *)

(** ** Strings and dictionaries *)

Lemma str_eqb_refl (a : pystr) : str_eqb a a = true.
Proof.
  induction a as [|x a IH]; simpl; [reflexivity|].
  now rewrite N.eqb_refl, IH.
Qed.

Lemma str_eqb_eq (a b : pystr) : str_eqb a b = true <-> a = b.
Proof.
  split.
  - revert b; induction a as [|x a IH]; intros [|y b] H; simpl in H;
      try discriminate; [reflexivity|].
    apply andb_true_iff in H as [Hx Hab].
    apply N.eqb_eq in Hx. apply IH in Hab. now subst.
  - intros ->. apply str_eqb_refl.
Qed.

Lemma str_eqb_sym (a b : pystr) : str_eqb a b = str_eqb b a.
Proof.
  destruct (str_eqb a b) eqn:E1, (str_eqb b a) eqn:E2; try reflexivity.
  - apply str_eqb_eq in E1. subst. now rewrite str_eqb_refl in E2.
  - apply str_eqb_eq in E2. subst. now rewrite str_eqb_refl in E1.
Qed.

Lemma dict_get_set_same {V} (k : pystr) (v : V) (d : dict V) :
  dict_get k (dict_set k v d) = Some v.
Proof.
  induction d as [|[k' v'] d IH]; simpl.
  - now rewrite str_eqb_refl.
  - destruct (str_eqb k k') eqn:E; simpl.
    + now rewrite str_eqb_refl.
    + now rewrite E.
Qed.

Lemma dict_get_set_other {V} (k k' : pystr) (v : V) (d : dict V) :
  str_eqb k k' = false -> dict_get k (dict_set k' v d) = dict_get k d.
Proof.
  intros Hne. induction d as [|[k0 v0] d IH]; simpl.
  - now rewrite Hne.
  - destruct (str_eqb k' k0) eqn:E; simpl.
    + apply str_eqb_eq in E. subst k0. now rewrite Hne.
    + destruct (str_eqb k k0); [reflexivity | exact IH].
Qed.

Lemma lstrip_starts_clean (s : pystr) : starts_clean (lstrip s) = true.
Proof.
  induction s as [|c s IH]; simpl; [reflexivity|].
  destruct (is_space c) eqn:E; [exact IH|]. simpl. now rewrite E.
Qed.

Lemma lstrip_id (s : pystr) : starts_clean s = true -> lstrip s = s.
Proof.
  destruct s as [|c s]; simpl; [reflexivity|].
  now destruct (is_space c).
Qed.

Lemma lstrip_app_keep (a b : pystr) (c : N) :
  is_space c = false -> lstrip (a ++ c :: b) = lstrip a ++ c :: b.
Proof.
  intros Hc. induction a as [|x a IH]; simpl.
  - now rewrite Hc.
  - destruct (is_space x); [exact IH | reflexivity].
Qed.

Lemma lstrip_In (c : N) (s : pystr) : In c (lstrip s) -> In c s.
Proof.
  induction s as [|x s IH]; simpl; [tauto|].
  destruct (is_space x); simpl; intuition.
Qed.

Lemma strip_In (c : N) (s : pystr) : In c (strip s) -> In c s.
Proof.
  unfold strip, rstrip. intros H.
  apply in_rev, lstrip_In in H. apply in_rev in H.
  now apply lstrip_In.
Qed.

Lemma strip_trimmed (s : pystr) : trimmedb (strip s) = true.
Proof.
  unfold trimmedb, strip, rstrip.
  rewrite rev_involutive, lstrip_starts_clean, andb_true_r.
  pose proof (lstrip_starts_clean s) as Hy.
  destruct (lstrip s) as [|c y]; [reflexivity|].
  simpl in Hy. apply negb_true_iff in Hy.
  simpl rev. rewrite lstrip_app_keep by exact Hy.
  rewrite rev_app_distr. simpl. now rewrite Hy.
Qed.

Lemma strip_id (s : pystr) : trimmedb s = true -> strip s = s.
Proof.
  unfold trimmedb, strip, rstrip. intros H.
  apply andb_true_iff in H as [H1 H2].
  rewrite (lstrip_id s H1), (lstrip_id (rev s) H2).
  apply rev_involutive.
Qed.

Lemma strip_idem (s : pystr) : strip (strip s) = strip s.
Proof. apply strip_id, strip_trimmed. Qed.

Lemma lstrip_blank (s : pystr) : forallb is_space s = true -> lstrip s = [].
Proof.
  induction s as [|c s IH]; simpl; [reflexivity|].
  intros H. apply andb_true_iff in H as [Hc Hs]. now rewrite Hc, IH.
Qed.

Lemma strip_blank (s : pystr) : forallb is_space s = true -> strip s = [].
Proof.
  intros H. unfold strip, rstrip. now rewrite (lstrip_blank s H).
Qed.

Lemma starts_clean_app (a b : pystr) :
  a <> [] -> starts_clean (a ++ b) = starts_clean a.
Proof. destruct a; [congruence | reflexivity]. Qed.

Lemma kept_line_nonempty (l : pystr) : kept_line l = true -> l <> [].
Proof. destruct l; [discriminate | congruence]. Qed.

Lemma kept_line_trimmed (l : pystr) : kept_line l = true -> trimmedb l = true.
Proof. unfold kept_line. intros H. now apply andb_true_iff in H as [_ H]. Qed.

Lemma kept_line_strip (l : pystr) : kept_line l = true -> strip l = l.
Proof. intros H. now apply strip_id, kept_line_trimmed. Qed.

Lemma strip_kept (l : pystr) : truthy (strip l) = true -> kept_line (strip l) = true.
Proof. intros H. unfold kept_line. now rewrite H, strip_trimmed. Qed.

Lemma clean_line_kept (l : pystr) : clean_line l = true -> kept_line l = true.
Proof. unfold clean_line. intros H. now apply andb_true_iff in H as [H _]. Qed.

Lemma clean_lines_kept (r : list pystr) :
  Forall (fun l => clean_line l = true) r ->
  Forall (fun l => kept_line l = true) r.
Proof. apply Forall_impl. exact clean_line_kept. Qed.

Lemma clean_line_strip (l : pystr) : clean_line l = true -> strip l = l.
Proof. intros H. now apply kept_line_strip, clean_line_kept. Qed.

Lemma clean_line_no_nl (l : pystr) :
  clean_line l = true -> existsb (N.eqb NL) l = false.
Proof.
  unfold clean_line. intros H.
  apply andb_true_iff in H as [_ H]. now apply negb_true_iff in H.
Qed.

Lemma join_cons2 (sep p q : pystr) (ps : list pystr) :
  join sep (p :: q :: ps) = p ++ sep ++ join sep (q :: ps).
Proof. reflexivity. Qed.

Lemma join_nonempty (r : list pystr) :
  r <> [] -> Forall (fun l => kept_line l = true) r -> join [NL] r <> [].
Proof.
  intros Hr Hall. destruct r as [|l r]; [congruence|].
  inversion Hall as [|? ? Hl _]; subst.
  apply kept_line_nonempty in Hl.
  destruct r as [|q r]; [exact Hl|].
  rewrite join_cons2. destruct l; [congruence | discriminate].
Qed.

Lemma join_starts_clean (r : list pystr) :
  Forall (fun l => kept_line l = true) r ->
  starts_clean (join [NL] r) = true.
Proof.
  intros Hall. destruct r as [|l r]; [reflexivity|].
  inversion Hall as [|? ? Hl _]; subst.
  pose proof (kept_line_trimmed l Hl) as Ht.
  apply andb_true_iff in Ht as [Ht _].
  destruct r as [|q r]; [exact Ht|].
  rewrite join_cons2, starts_clean_app; [exact Ht|].
  now apply kept_line_nonempty.
Qed.

Lemma join_ends_clean (r : list pystr) :
  Forall (fun l => kept_line l = true) r ->
  starts_clean (rev (join [NL] r)) = true.
Proof.
  induction r as [|l r IH]; intros Hall; [reflexivity|].
  inversion Hall as [|? ? Hl Hr]; subst.
  destruct r as [|q r].
  - pose proof (kept_line_trimmed l Hl) as Ht.
    now apply andb_true_iff in Ht as [_ Ht].
  - rewrite join_cons2, !rev_app_distr, <- app_assoc.
    rewrite starts_clean_app; [now apply IH|].
    intros E. apply (f_equal (@rev N)) in E.
    rewrite rev_involutive in E. change (rev []) with (@nil N) in E.
    revert E. apply join_nonempty; [discriminate | exact Hr].
Qed.

(** Joining kept lines gives a text that [strip] does not change. *)
Lemma strip_join (r : list pystr) :
  Forall (fun l => kept_line l = true) r ->
  strip (join [NL] r) = join [NL] r.
Proof.
  intros Hall. apply strip_id. unfold trimmedb.
  now rewrite join_starts_clean, join_ends_clean.
Qed.

Lemma split_on_no_sep (sep : N) (l : pystr) :
  existsb (N.eqb sep) l = false -> split_on sep l = [l].
Proof.
  induction l as [|c l IH]; simpl; [reflexivity|].
  intros H. apply orb_false_iff in H as [Hc Hl].
  rewrite N.eqb_sym, Hc, (IH Hl). reflexivity.
Qed.

Lemma split_on_app_sep (sep : N) (l rest : pystr) :
  existsb (N.eqb sep) l = false ->
  split_on sep (l ++ sep :: rest) = l :: split_on sep rest.
Proof.
  induction l as [|c l IH]; simpl.
  - now rewrite N.eqb_refl.
  - intros H. apply orb_false_iff in H as [Hc Hl].
    rewrite N.eqb_sym, Hc, (IH Hl). reflexivity.
Qed.

Lemma split_join (r : list pystr) :
  r <> [] -> Forall (fun l => clean_line l = true) r ->
  split_on NL (join [NL] r) = r.
Proof.
  induction r as [|l r IH]; intros Hne Hall; [congruence|].
  inversion Hall as [|? ? Hl Hr]; subst.
  destruct r as [|q r].
  - apply split_on_no_sep. now apply clean_line_no_nl.
  - rewrite join_cons2. simpl app.
    rewrite split_on_app_sep by now apply clean_line_no_nl.
    f_equal. apply IH; [discriminate | exact Hr].
Qed.

Lemma value_lines_join (r : list pystr) :
  Forall (fun l => clean_line l = true) r ->
  value_lines (join [NL] r) = r.
Proof.
  intros Hall. destruct r as [|l r]; [reflexivity|].
  unfold value_lines.
  destruct (join [NL] (l :: r)) eqn:E.
  - exfalso. revert E.
    apply join_nonempty; [discriminate | now apply clean_lines_kept].
  - rewrite <- E. apply split_join; [discriminate | exact Hall].
Qed.

Lemma split_on_pieces (sep : N) (s : pystr) :
  Forall (fun p => existsb (N.eqb sep) p = false) (split_on sep s).
Proof.
  induction s as [|c s IH]; simpl.
  - repeat constructor.
  - destruct (c =? sep) eqn:E.
    + constructor; [reflexivity | exact IH].
    + destruct (split_on sep s) as [|w ws]; [repeat constructor; simpl|].
      * now rewrite N.eqb_sym, E.
      * inversion IH; subst. constructor; [simpl|assumption].
        rewrite N.eqb_sym, E. assumption.
Qed.

Lemma existsb_strip (c : N) (s : pystr) :
  existsb (N.eqb c) s = false -> existsb (N.eqb c) (strip s) = false.
Proof.
  intros H. destruct (existsb (N.eqb c) (strip s)) eqn:E; [|reflexivity].
  apply existsb_exists in E as [x [Hin Hx]].
  apply N.eqb_eq in Hx. subst x. apply strip_In in Hin.
  assert (existsb (N.eqb c) s = true) as Ht
    by (apply existsb_exists; exists c; split; [exact Hin | apply N.eqb_refl]).
  congruence.
Qed.

Lemma raw_lines_clean (content_text : pystr) :
  Forall (fun l => clean_line l = true) (raw_lines content_text).
Proof.
  unfold raw_lines, trimmed_lines.
  pose proof (split_on_pieces NL content_text) as Hp.
  induction (split_on NL content_text) as [|p ps IH]; simpl; [constructor|].
  inversion Hp as [|? ? Hp1 Hp2]; subst.
  destruct (truthy (strip p)) eqn:E; [|now apply IH].
  constructor; [|now apply IH].
  unfold clean_line. rewrite (strip_kept p E). simpl.
  apply negb_true_iff. now apply existsb_strip.
Qed.

(** ** The segmentation loop *)

Lemma seg_step_strip (st : seg_state) (l : pystr) :
  seg_step st (strip l) = seg_step st l.
Proof. unfold seg_step. now rewrite strip_idem. Qed.

Lemma fold_trimmed (ls : list pystr) (st : seg_state) :
  fold_left seg_step ls st = fold_left seg_step (trimmed_lines ls) st.
Proof.
  revert st. unfold trimmed_lines.
  induction ls as [|l ls IH]; intros st; simpl; [reflexivity|].
  destruct (truthy (strip l)) eqn:E; simpl.
  - rewrite seg_step_strip. apply IH.
  - rewrite <- IH. f_equal. unfold seg_step. now rewrite E.
Qed.

Lemma seg_step_clean (st : seg_state) (l : pystr) :
  clean_line l = true ->
  seg_step st l =
    match find_section l with
    | Some section_name => mkSeg (flush st) section_name [l]
    | None => mkSeg (sections st) (current_section st)
                    (current_content st ++ [l])
    end.
Proof.
  intros Hl. unfold seg_step.
  rewrite (clean_line_strip l Hl).
  destruct l; [discriminate | reflexivity].
Qed.

Lemma flush_apply_run (st : seg_state) :
  Forall (fun l => kept_line l = true) (current_content st) ->
  flush st = apply_run (sections st) (current_section st, current_content st).
Proof.
  intros Hc. unfold flush, apply_run. simpl.
  destruct (current_content st) eqn:E; [reflexivity|].
  now rewrite strip_join.
Qed.

Lemma flush_fold_runs (ls : list pystr) :
  Forall (fun l => clean_line l = true) ls ->
  forall st, Forall (fun l => clean_line l = true) (current_content st) ->
  flush (fold_left seg_step ls st) =
  fold_left apply_run
    (runs_from (current_section st) (current_content st) ls) (sections st).
Proof.
  induction 1 as [|l ls Hl Hls IH]; intros st Hst; simpl.
  - now apply flush_apply_run, clean_lines_kept.
  - rewrite (seg_step_clean st l Hl).
    destruct (find_section l) as [name|]; simpl.
    + rewrite IH by (simpl; auto). simpl.
      now rewrite flush_apply_run by now apply clean_lines_kept.
    + rewrite IH; [reflexivity|]. simpl.
      apply Forall_app. auto.
Qed.

Lemma segment_as_runs (content_text : pystr) :
  segment content_text =
  fold_left apply_run
    (runs_from JOB_DESCRIPTION [] (raw_lines content_text)) sections_init.
Proof.
  unfold segment, segment_lines, raw_lines.
  rewrite fold_trimmed.
  apply (flush_fold_runs _ (raw_lines_clean content_text) seg_init).
  constructor.
Qed.

Lemma runs_from_concat (ls : list pystr) :
  forall cur buf, concat (map snd (runs_from cur buf ls)) = buf ++ ls.
Proof.
  induction ls as [|l ls IH]; intros cur buf; simpl.
  - now rewrite app_nil_r.
  - destruct (find_section l); simpl; rewrite IH.
    + reflexivity.
    + now rewrite <- app_assoc.
Qed.

Lemma runs_from_clean (ls : list pystr) :
  Forall (fun l => clean_line l = true) ls ->
  forall cur buf, Forall (fun l => clean_line l = true) buf ->
  Forall (fun r => Forall (fun l => clean_line l = true) (snd r))
         (runs_from cur buf ls).
Proof.
  induction 1 as [|l ls Hl Hls IH]; intros cur buf Hbuf; simpl.
  - auto.
  - destruct (find_section l).
    + constructor; [exact Hbuf|]. apply IH. auto.
    + apply IH. apply Forall_app. auto.
Qed.

Lemma section_lines_set (s v : pystr) (d : dict pystr) :
  Permutation (section_lines (dict_set s v d) ++ lines_at s d)
              (value_lines v ++ section_lines d).
Proof.
  unfold section_lines, lines_at.
  induction d as [|[k0 v0] d IH]; simpl.
  - now rewrite !app_nil_r.
  - destruct (str_eqb s k0); simpl.
    + rewrite <- app_assoc. apply Permutation_app_head.
      apply Permutation_app_comm.
    + rewrite <- app_assoc.
      eapply Permutation_trans; [apply Permutation_app_head, IH|].
      rewrite !app_assoc. apply Permutation_app_tail.
      apply Permutation_app_comm.
Qed.

Lemma existsb_distinct_ne (s s0 : pystr) (names : list pystr) :
  existsb (str_eqb s) names = false ->
  existsb (str_eqb s0) names = true ->
  str_eqb s0 s = false.
Proof.
  intros Hs Hs0. destruct (str_eqb s0 s) eqn:E; [|reflexivity].
  apply str_eqb_eq in E. subst. congruence.
Qed.

Lemma lines_at_set_other (s s0 v : pystr) (d : dict pystr) :
  str_eqb s0 s = false -> lines_at s0 (dict_set s v d) = lines_at s0 d.
Proof. intros H. unfold lines_at. now rewrite dict_get_set_other. Qed.

(** Applying runs to a dictionary only moves lines: what the sections
    hold afterwards, with the lines that were overwritten, is what they
    held before with the lines of the runs. *)
Lemma apply_runs_lines (rs : list (pystr * list pystr)) :
  Forall (fun r => Forall (fun l => clean_line l = true) (snd r)) rs ->
  forall d, exists dropped,
    Permutation (section_lines (fold_left apply_run rs d) ++ dropped)
                (section_lines d ++ concat (map snd rs))
    /\ (distinct (run_sections rs) = true ->
        (forall s, existsb (str_eqb s) (run_sections rs) = true ->
                   lines_at s d = []) ->
        dropped = []).
Proof.
  induction 1 as [|[s r] rs Hr Hrs IH]; intros d; simpl.
  - exists []. split; [reflexivity | auto].
  - destruct r as [|l r].
    + destruct (IH d) as [dr [Hp Hd]]. exists dr. split; [exact Hp|].
      exact Hd.
    + unfold apply_run at 2. simpl fst. simpl snd. simpl in Hr.
      set (v := join [NL] (l :: r)).
      destruct (IH (dict_set s v d)) as [dr [Hp Hd]].
      exists (dr ++ lines_at s d). split.
      * rewrite app_assoc.
        eapply Permutation_trans; [apply Permutation_app_tail, Hp|].
        rewrite <- app_assoc.
        eapply Permutation_trans;
          [apply Permutation_app_head, Permutation_app_comm|].
        rewrite app_assoc.
        eapply Permutation_trans;
          [apply Permutation_app_tail, section_lines_set|].
        unfold v. rewrite (value_lines_join _ Hr).
        rewrite (app_assoc (section_lines d)).
        apply Permutation_app_tail, Permutation_app_comm.
      * unfold run_sections. simpl. fold (run_sections rs).
        intros Hdist Hempty.
        apply andb_true_iff in Hdist as [Hs Hdist].
        apply negb_true_iff in Hs.
        rewrite Hd.
        -- simpl. apply Hempty. simpl. now rewrite str_eqb_refl.
        -- exact Hdist.
        -- intros s0 Hs0.
           rewrite lines_at_set_other
             by (eapply existsb_distinct_ne; eauto).
           apply Hempty. simpl. rewrite Hs0. apply orb_true_r.
Qed.

Lemma lines_at_init (s : pystr) : lines_at s sections_init = [].
Proof.
  unfold lines_at, sections_init. simpl.
  repeat match goal with
         | |- context [if ?b then _ else _] => destruct b
         end; reflexivity.
Qed.

(** ** Segmentation: which lines the sections hold *)

(** C1, as amended. Segmentation creates no line and duplicates none: the
    lines of the five section values, together with the lines that a later
    run of the same section has overwritten, are exactly the non-empty
    trimmed lines of the raw content; and when no section receives two
    runs of lines, nothing is overwritten and the sections hold exactly
    those lines. *)
Theorem segment_redistributes_lines (content_text : pystr) :
  exists dropped : list pystr,
    Permutation (section_lines (segment content_text) ++ dropped)
                (raw_lines content_text)
    /\ (no_section_twice content_text = true -> dropped = []).
Proof.
  rewrite segment_as_runs.
  pose proof (raw_lines_clean content_text) as Hclean.
  destruct (apply_runs_lines
              (runs_from JOB_DESCRIPTION [] (raw_lines content_text))
              (runs_from_clean _ Hclean JOB_DESCRIPTION [] (Forall_nil _))
              sections_init) as [dropped [Hp Hd]].
  exists dropped. split.
  - rewrite runs_from_concat in Hp. exact Hp.
  - intros Hno. apply Hd; [exact Hno|].
    intros s _. apply lines_at_init.
Qed.

(** C1 at a text each of whose sections receives one run: its four lines
    are all in the sections. *)
Lemma segment_redistributes_lines_witness :
  Permutation
    (section_lines
       (segment (join [NL] [lit "Functieomschrijving"; lit "line A";
                            lit "Functie-eisen"; lit "line B"])))
    (raw_lines (join [NL] [lit "Functieomschrijving"; lit "line A";
                           lit "Functie-eisen"; lit "line B"])).
Proof.
  destruct (segment_redistributes_lines
              (join [NL] [lit "Functieomschrijving"; lit "line A";
                          lit "Functie-eisen"; lit "line B"]))
    as [dropped [Hp Hd]].
  rewrite (Hd eq_refl), app_nil_r in Hp. exact Hp.
Defined.

(** C1 as stated fails: a heading after an introduction starts a second
    run of [job_description], and the introduction is lost. *)
Lemma segment_drops_overwritten_run :
  ~ Permutation
      (section_lines
         (segment (join [NL] [lit "Vacature"; lit "Functieomschrijving";
                              lit "Werk"])))
      (raw_lines (join [NL] [lit "Vacature"; lit "Functieomschrijving";
                             lit "Werk"])).
Proof.
  intros H. apply Permutation_length in H.
  vm_compute in H. discriminate H.
Qed.

(** C8. The four raw lines of the example give [job_description] and
    [requirements] their two lines each and leave the other three sections
    empty. *)
Theorem segment_functie_example :
  segment (join [NL] [lit "Functieomschrijving"; lit "line A";
                      lit "Functie-eisen"; lit "line B"])
  = [ (JOB_DESCRIPTION, join [NL] [lit "Functieomschrijving"; lit "line A"]);
      (REQUIREMENTS, join [NL] [lit "Functie-eisen"; lit "line B"]);
      (WHAT_WE_OFFER, []);
      (EMPLOYMENT_CONDITIONS, []);
      (APPLICATION_PROCESS, []) ]
  /\ segment_lines [lit "Functieomschrijving"; lit "line A";
                    lit "Functie-eisen"; lit "line B"]
     = segment (join [NL] [lit "Functieomschrijving"; lit "line A";
                           lit "Functie-eisen"; lit "line B"]).
Proof. split; vm_compute; reflexivity. Qed.

(** ** Segmentation: what a matching line does *)

Lemma trigger_nonblank (line name : pystr) :
  trigger line = Some name -> truthy (strip line) = true.
Proof.
  unfold trigger. destruct (strip line); [discriminate | reflexivity].
Qed.

Lemma seg_inv_init : seg_inv seg_init.
Proof. split; [constructor | reflexivity]. Qed.

Lemma seg_inv_step (st : seg_state) (line : pystr) :
  seg_inv st -> seg_inv (seg_step st line).
Proof.
  intros [Hk Hinit]. unfold seg_step.
  destruct (truthy (strip line)) eqn:E; simpl; [|now split].
  pose proof (strip_kept line E) as Hl.
  destruct (find_section (strip line)); split; simpl.
  - auto.
  - discriminate.
  - apply Forall_app. auto.
  - intros H. now apply app_eq_nil in H as [_ H].
Qed.

Lemma seg_inv_fold (lines : list pystr) (st : seg_state) :
  seg_inv st -> seg_inv (fold_left seg_step lines st).
Proof.
  revert st. induction lines as [|l ls IH]; intros st H; simpl; [exact H|].
  now apply IH, seg_inv_step.
Qed.

Lemma flush_inv (st : seg_state) :
  seg_inv st ->
  flush st = dict_set (current_section st)
               (join [NL] (current_content st)) (sections st).
Proof.
  intros [Hk Hinit]. unfold flush.
  destruct (current_content st) eqn:E.
  - rewrite (Hinit eq_refl). reflexivity.
  - now rewrite strip_join.
Qed.

Lemma flush_cons (d : dict pystr) (cur l : pystr) (r : list pystr) :
  flush (mkSeg d cur (l :: r)) = dict_set cur (strip (join [NL] (l :: r))) d.
Proof. reflexivity. Qed.

Lemma seg_step_trigger (st : seg_state) (line name : pystr) :
  seg_inv st -> trigger line = Some name ->
  seg_step st line =
    mkSeg (dict_set (current_section st)
             (join [NL] (current_content st)) (sections st))
          name [strip line].
Proof.
  intros Hinv Ht. unfold seg_step.
  rewrite (trigger_nonblank line name Ht). simpl.
  unfold trigger in Ht. rewrite Ht. now rewrite flush_inv.
Qed.

Lemma fold_no_trigger (run : list pystr) (st : seg_state) :
  forallb no_trigger run = true ->
  fold_left seg_step run st =
    mkSeg (sections st) (current_section st)
          (current_content st ++ trimmed_lines run).
Proof.
  revert st. unfold trimmed_lines.
  induction run as [|x run IH]; intros st H; simpl.
  - rewrite app_nil_r. now destruct st.
  - apply andb_true_iff in H as [Hx Hrun].
    unfold no_trigger, trigger in Hx.
    rewrite (IH _ Hrun). unfold seg_step.
    destruct (truthy (strip x)) eqn:E; simpl; [|reflexivity].
    destruct (find_section (strip x)); [discriminate|]. simpl.
    now rewrite <- app_assoc.
Qed.

(** Once section [name] holds [v] and another section is current, lines
    that do not start [name] leave [v] where it is. *)
Lemma fold_keeps_section (name v : pystr) (post : list pystr) :
  forall st,
  forallb (no_trigger_of name) post = true ->
  str_eqb name (current_section st) = false ->
  dict_get name (sections st) = Some v ->
  dict_get name (flush (fold_left seg_step post st)) = Some v.
Proof.
  induction post as [|x post IH]; intros st Hpost Hcur Hv; simpl.
  - unfold flush. destruct (current_content st); [exact Hv|].
    now rewrite dict_get_set_other.
  - apply andb_true_iff in Hpost as [Hx Hpost].
    apply IH; [exact Hpost | |]; unfold seg_step;
      destruct (truthy (strip x)); simpl; try assumption;
      unfold no_trigger_of, trigger in Hx;
      destruct (find_section (strip x)) as [s|]; simpl; try assumption.
    + apply negb_true_iff in Hx. now rewrite str_eqb_sym.
    + unfold flush. destruct (current_content st); [exact Hv|].
      now rewrite dict_get_set_other.
Qed.

(** C2. When a line matches a pattern of section [name], the buffer joined
    with newlines is stored under the current section, in place of what
    that section held, and the line starts the new buffer; so after the
    last line that starts [name], the section holds that line and the
    lines up to the next matching line, whatever ran before. *)
Theorem flush_overwrites_section
  (pre run post : list pystr) (line name : pystr) :
  trigger line = Some name ->
  forallb no_trigger run = true ->
  forallb (no_trigger_of name) post = true ->
  match post with [] => true | p :: _ => negb (no_trigger p) end = true ->
  let st := fold_left seg_step pre seg_init in
  seg_step st line =
    mkSeg (dict_set (current_section st)
             (join [NL] (current_content st)) (sections st))
          name [strip line]
  /\ dict_get (current_section st) (sections (seg_step st line))
     = Some (join [NL] (current_content st))
  /\ dict_get name (segment_lines (pre ++ line :: run ++ post))
     = Some (join [NL] (strip line :: trimmed_lines run)).
Proof.
  intros Ht Hrun Hpost Hhead st.
  assert (Hinv : seg_inv st) by apply seg_inv_fold, seg_inv_init.
  pose proof (seg_step_trigger st line name Hinv Ht) as Hstep.
  split; [exact Hstep|]. split.
  - rewrite Hstep. simpl. apply dict_get_set_same.
  - unfold segment_lines.
    rewrite fold_left_app. cbn [fold_left]. fold st. rewrite Hstep.
    rewrite fold_left_app, (fold_no_trigger run _ Hrun).
    cbn [sections current_section current_content app].
    set (s1 := dict_set (current_section st)
                 (join [NL] (current_content st)) (sections st)).
    assert (Hkept : Forall (fun l => kept_line l = true)
                           (strip line :: trimmed_lines run)).
    { constructor.
      - apply strip_kept. eapply trigger_nonblank; eauto.
      - unfold trimmed_lines. apply Forall_forall. intros l Hl.
        apply filter_In in Hl as [Hl Hne].
        apply in_map_iff in Hl as [x [<- _]]. now apply strip_kept. }
    destruct post as [|p post].
    + cbn [fold_left]. rewrite flush_cons, (strip_join _ Hkept).
      apply dict_get_set_same.
    + cbn [forallb] in Hpost. apply andb_true_iff in Hpost as [Hp Hpost].
      cbn [fold_left]. unfold no_trigger in Hhead.
      unfold no_trigger_of in Hp.
      destruct (trigger p) as [s'|] eqn:Etp; [|discriminate].
      apply negb_true_iff in Hp.
      assert (Hinv2 : seg_inv (mkSeg s1 name
                                 (strip line :: trimmed_lines run)))
        by (split; [exact Hkept | discriminate]).
      rewrite (seg_step_trigger _ p s' Hinv2 Etp).
      cbn [sections current_section current_content].
      apply fold_keeps_section;
        cbn [sections current_section current_content].
      * exact Hpost.
      * now rewrite str_eqb_sym.
      * apply dict_get_set_same.
Qed.

(** C2 at a text in which [requirements] is started twice: the section
    ends with its second run only. *)
Lemma flush_overwrites_section_witness :
  dict_get REQUIREMENTS
    (segment_lines [lit "Requirements"; lit "first"; lit "Salary";
                    lit "pay"; lit "Requirements"; lit "second";
                    lit "Apply"; lit "here"])
  = Some (join [NL] [lit "Requirements"; lit "second"]).
Proof.
  exact (proj2 (proj2
    (flush_overwrites_section
       [lit "Requirements"; lit "first"; lit "Salary"; lit "pay"]
       [lit "second"] [lit "Apply"; lit "here"]
       (lit "Requirements") REQUIREMENTS
       eq_refl eq_refl eq_refl eq_refl))).
Defined.

(** ** The extractor: company information *)

(** C7. When the company line splits on the middle dot into fewer than
    three parts, the record has none of [name], [location] and
    [posting_date]. *)
Theorem company_info_needs_three_parts
  (page : soup) (page_url now content_text company_text : pystr) :
  main_content page = Some content_text ->
  company_info_element page = Some company_text ->
  (length (split_on MIDDLE_DOT company_text) < 3)%nat ->
  exists j : job_info,
    extract_structured_job_info page page_url now = Some j
    /\ dict_mem K_NAME (company_info j) = false
    /\ dict_mem K_LOCATION (company_info j) = false
    /\ dict_mem K_POSTING_DATE (company_info j) = false
    /\ company_info j = [].
Proof.
  intros Hmain Hcompany Hparts.
  unfold extract_structured_job_info. rewrite Hmain, Hcompany.
  eexists. split; [reflexivity|]. simpl.
  unfold parse_company_info. rewrite length_map.
  assert ((3 <=? length (split_on MIDDLE_DOT company_text))%nat = false)
    as -> by (apply Nat.leb_gt; exact Hparts).
  repeat split.
Qed.

(** C7 at a company line of two parts, "Acme BV · Amsterdam". *)
Lemma company_info_needs_three_parts_witness :
  exists j : job_info,
    extract_structured_job_info
      (mkSoup (Some (lit "Werk")) None
              (Some (lit "Acme BV " ++ [MIDDLE_DOT] ++ lit " Amsterdam"))
              [] [])
      (lit "https://example.nl/vacature/1") (lit "2025-01-01 12:00:00")
    = Some j
    /\ dict_mem K_NAME (company_info j) = false
    /\ dict_mem K_LOCATION (company_info j) = false
    /\ dict_mem K_POSTING_DATE (company_info j) = false
    /\ company_info j = [].
Proof.
  apply (company_info_needs_three_parts _ _ _ (lit "Werk")
           (lit "Acme BV " ++ [MIDDLE_DOT] ++ lit " Amsterdam"));
    [reflexivity | reflexivity | vm_compute; lia].
Defined.

(** ** The translator adapter *)

(** C6. A text that is empty or all white space comes back as it is, and
    the world is the same afterwards: no request was sent and nothing was
    printed. *)
Theorem translate_text_blank
  (api : list pystr -> pystr -> api_response)
  (text source_lang target_lang : pystr) (w : world) :
  forallb is_space text = true ->
  translate_text api text source_lang target_lang w = (Ok text, w)
  /\ api_calls (snd (translate_text api text source_lang target_lang w))
     = api_calls w.
Proof.
  intros Hblank. unfold translate_text.
  rewrite (strip_blank text Hblank). simpl.
  rewrite orb_true_r. split; reflexivity.
Qed.

(** C6 at a text of a space, a tab and a newline. *)
Lemma translate_text_blank_witness :
  translate_text (fun _ _ => ApiReturns [Some (lit "never asked")])
    [32; 9; 10] (lit "nl") (lit "en") empty_world
  = (Ok [32; 9; 10], empty_world).
Proof.
  apply (translate_text_blank _ [32; 9; 10] (lit "nl") (lit "en") empty_world).
  reflexivity.
Defined.

(** C5. A call with a text and two language codes always returns a
    string, whatever the remote service does; when the request raises or
    its response has no usable first choice, the string is the text that
    was given, the heap is untouched, and (a request having been sent) one
    line that starts with "Translation error: " has been printed. *)
Theorem translate_text_never_raises
  (api : list pystr -> pystr -> api_response)
  (text source_lang target_lang : pystr) (w : world) :
  exists (v : pystr) (w' : world),
    translate_text api text source_lang target_lang w = (Ok v, w')
    /\ heap w' = heap w
    /\ (remote_fails
          (api (api_calls w)
               (make_prompt (lang_name source_lang) (lang_name target_lang)
                            text)) = true ->
        v = text
        /\ (truthy (strip text) = true ->
            exists msg, stdout w' = stdout w ++ [TRANSLATION_ERROR ++ msg])).
Proof.
  unfold translate_text.
  destruct (negb (truthy text) || negb (truthy (strip text))) eqn:Eb.
  - exists text, w. repeat split.
    intros Ht. apply orb_true_iff in Eb as [Eb|Eb];
      apply negb_true_iff in Eb.
    + destruct text; [discriminate Ht | discriminate Eb].
    + congruence.
  - unfold try_except, bind, chat_completions_create, first_choice_text.
    destruct (api (api_calls w) _) as [msg | [|[content|] choices]];
      simpl; eexists; eexists; (split; [reflexivity|]); simpl;
      (split; [reflexivity|]); intros Hf; try discriminate Hf;
      (split; [reflexivity|]); intros _; eexists; reflexivity.
Qed.

(** C5 at a request that the network makes fail. *)
Lemma translate_text_never_raises_witness :
  exists (v : pystr) (w' : world),
    translate_text (fun _ _ => ApiRaises (lit "Connection error."))
      (lit "Hallo") (lit "nl") (lit "en") empty_world = (Ok v, w')
    /\ v = lit "Hallo".
Proof.
  destruct (translate_text_never_raises
              (fun _ _ => ApiRaises (lit "Connection error."))
              (lit "Hallo") (lit "nl") (lit "en") empty_world)
    as [v [w' [Hrun [_ Hfail]]]].
  exists v, w'. split; [exact Hrun|]. apply Hfail. reflexivity.
Defined.

(** ** The orchestrator *)

(** The text that would go to the translator is the first 3000 characters
    of a longer section. *)
Lemma content_to_translate_long (content : pystr) :
  (MAX_CONTENT < length content)%nat ->
  content_to_translate content = firstn MAX_CONTENT content
  /\ length (content_to_translate content) = MAX_CONTENT.
Proof.
  intros Hlong. unfold content_to_translate, slice_to.
  apply Nat.ltb_lt in Hlong as Hb. rewrite Hb.
  split; [reflexivity|]. apply firstn_length_le.
  apply Nat.lt_le_incl. exact Hlong.
Qed.

Lemma content_to_translate_short (content : pystr) :
  (length content <= MAX_CONTENT)%nat ->
  content_to_translate content = content.
Proof.
  intros Hshort. unfold content_to_translate.
  apply Nat.ltb_ge in Hshort. now rewrite Hshort.
Qed.

(** The keyword call of the orchestrator never reaches the body of
    [translate_text]: [source] names no parameter. *)
Lemma translate_auto_en_raises
  (api : list pystr -> pystr -> api_response) (arg : M hval) (w : world) :
  translate_auto_en api arg w
  = (Raise (unexpected_keyword (lit "source")), w).
Proof. reflexivity. Qed.

(** C3, on the code. A record with a company name, a title, one feature
    and one section of text: the first call of the translator raises, the
    handler returns the copy as it is, and none of the four translations
    is in it; no request was sent, one error line was printed. *)
Theorem translate_stops_at_first_field
  (api : list pystr -> pystr -> api_response) :
  exists (j : job_info) (job out : hval) (w : world),
    extract_structured_job_info
      (mkSoup (Some (join [NL] [lit "Functieomschrijving"; lit "Werk"]))
              (Some (lit "Ontwikkelaar"))
              (Some (lit "Acme BV " ++ [MIDDLE_DOT]
                     ++ lit " Standplaats: Amsterdam " ++ [MIDDLE_DOT]
                     ++ lit " 3 dagen geleden"))
              [(Some (lit "Uren"), Some (lit "40"))] [])
      (lit "https://example.nl/vacature/1") (lit "2025-01-01 12:00:00")
    = Some j
    /\ extract_then_translate api j empty_world = (Ok (job, out), w)
    /\ nested_has w out K_COMPANY_INFO K_NAME = true
    /\ nested_has w out K_COMPANY_INFO K_NAME_EN = false
    /\ nested_has w out K_JOB_DETAILS K_TITLE_EN = false
    /\ nested_has w out K_JOB_DETAILS K_FEATURES_TRANSLATED = false
    /\ top_has w out K_TRANSLATED_SECTIONS = false
    /\ api_calls w = []
    /\ stdout w = [JOB_ERROR ++ exn_str (unexpected_keyword (lit "source"))].
Proof.
  do 4 eexists. split; [reflexivity|].
  split; [vm_compute; reflexivity|].
  vm_compute. repeat split.
Qed.

(** C4, on the code. A page without company line, title and features: the
    copy is a new dictionary, but its [job_details] is the one of the
    input, and the input has the key [features_translated] after the
    call. *)
Theorem translate_writes_into_input
  (api : list pystr -> pystr -> api_response) :
  exists (j : job_info) (job out : hval) (w0 w : world),
    extract_structured_job_info
      (mkSoup (Some (lit "Wij zoeken een ontwikkelaar")) None None [] [])
      (lit "https://example.nl/vacature/1") (lit "2025-01-01 12:00:00")
    = Some j
    /\ alloc_job_info j empty_world = (Ok job, w0)
    /\ translate_structured_job_info api job w0 = (Ok out, w)
    /\ out <> job
    /\ lookup_in w0 job K_JOB_DETAILS = Some [(K_FEATURES, HRef 1)]
    /\ lookup_in w job K_JOB_DETAILS
       = Some [(K_FEATURES, HRef 1); (K_FEATURES_TRANSLATED, HRef 9)]
    /\ nested_has w0 job K_JOB_DETAILS K_FEATURES_TRANSLATED = false
    /\ nested_has w job K_JOB_DETAILS K_FEATURES_TRANSLATED = true.
Proof.
  do 5 eexists. split; [reflexivity|].
  split; [vm_compute; reflexivity|].
  split; [vm_compute; reflexivity|].
  split; [discriminate|].
  vm_compute. repeat split.
Qed.

(** C9, on the code. A section of 5000 characters: the text to translate
    is computed and has 3000 characters, but the call that should receive
    it raises before it takes any argument; no request is sent and the
    record has no [translated_sections], so no [word_count] either. *)
Theorem long_section_is_not_translated
  (api : list pystr -> pystr -> api_response) :
  exists (j : job_info) (job out : hval) (w : world),
    extract_structured_job_info
      (mkSoup (Some (repeat 97 (N.to_nat 5000))) None None [] [])
      (lit "https://example.nl/vacature/1") (lit "2025-01-01 12:00:00")
    = Some j
    /\ dict_get JOB_DESCRIPTION (structured_content j)
       = Some (repeat 97 (N.to_nat 5000))
    /\ length (content_to_translate (repeat 97 (N.to_nat 5000))) = 3000%nat
    /\ extract_then_translate api j empty_world = (Ok (job, out), w)
    /\ top_has w out K_TRANSLATED_SECTIONS = false
    /\ api_calls w = []
    /\ stdout w = [JOB_ERROR ++ exn_str (unexpected_keyword (lit "source"))].
Proof.
  do 4 eexists. split; [reflexivity|].
  split; [vm_compute; reflexivity|].
  split; [vm_compute; reflexivity|].
  split; [vm_compute; reflexivity|].
  vm_compute. repeat split.
Qed.

(** C10, on the code. A record with a company name and no text in any
    section: the call for the name raises, an error line is printed and
    the record has no [translated_sections]. *)
Theorem empty_sections_with_name_report_error
  (api : list pystr -> pystr -> api_response) :
  exists (j : job_info) (job out : hval) (w : world),
    extract_structured_job_info
      (mkSoup (Some []) (Some (lit "Ontwikkelaar"))
              (Some (lit "Acme BV " ++ [MIDDLE_DOT]
                     ++ lit " Standplaats: Amsterdam " ++ [MIDDLE_DOT]
                     ++ lit " 3 dagen geleden"))
              [] [])
      (lit "https://example.nl/vacature/1") (lit "2025-01-01 12:00:00")
    = Some j
    /\ forallb (fun kv => negb (truthy (strip (snd kv))))
               (structured_content j) = true
    /\ extract_then_translate api j empty_world = (Ok (job, out), w)
    /\ top_has w out K_TRANSLATED_SECTIONS = false
    /\ stdout w = [JOB_ERROR ++ exn_str (unexpected_keyword (lit "source"))].
Proof.
  do 4 eexists. split; [reflexivity|].
  split; [vm_compute; reflexivity|].
  split; [vm_compute; reflexivity|].
  vm_compute. repeat split.
Qed.

(* ===================================================================== *)
(** * Further properties of the extractor *)
(* ===================================================================== *)

(** ** The table of sections *)

Lemma find_section_in_key (table : dict (list regex)) (line name : pystr) :
  find_section_in table line = Some name -> In name (dict_keys table).
Proof.
  induction table as [|[k pats] table IH]; simpl; [discriminate|].
  destruct (existsb _ pats).
  - intros [= ->]. now left.
  - intros H. right. now apply IH.
Qed.

Lemma dict_keys_set_present {V} (k : pystr) (v : V) (d : dict V) :
  In k (dict_keys d) -> dict_keys (dict_set k v d) = dict_keys d.
Proof.
  induction d as [|[k' v'] d IH]; simpl; [tauto|].
  intros H. destruct (str_eqb k k') eqn:E; simpl.
  - apply str_eqb_eq in E. now subst.
  - f_equal. apply IH. destruct H as [H|H]; [|exact H].
    subst. now rewrite str_eqb_refl in E.
Qed.

Lemma flush_keys (st : seg_state) :
  In (current_section st) (dict_keys (sections st)) ->
  dict_keys (flush st) = dict_keys (sections st).
Proof.
  intros H. unfold flush. destruct (current_content st); [reflexivity|].
  now apply dict_keys_set_present.
Qed.

Lemma seg_step_keys (st : seg_state) (line : pystr) :
  dict_keys (sections st) = dict_keys sections_init ->
  In (current_section st) (dict_keys sections_init) ->
  dict_keys (sections (seg_step st line)) = dict_keys sections_init
  /\ In (current_section (seg_step st line)) (dict_keys sections_init).
Proof.
  intros Hk Hc. unfold seg_step.
  destruct (truthy (strip line)); simpl; [|now split].
  destruct (find_section (strip line)) as [name|] eqn:E; simpl.
  - split.
    + rewrite flush_keys; [exact Hk | now rewrite Hk].
    + apply find_section_in_key in E. exact E.
  - now split.
Qed.

(** X1. Whatever the lines are, the result of the segmentation has the
    five section keys, each once, in the order of the table. *)
Theorem segment_lines_keys (lines : list pystr) :
  dict_keys (segment_lines lines)
  = [ JOB_DESCRIPTION; REQUIREMENTS; WHAT_WE_OFFER; EMPLOYMENT_CONDITIONS;
      APPLICATION_PROCESS ].
Proof.
  unfold segment_lines.
  assert (forall st,
            dict_keys (sections st) = dict_keys sections_init ->
            In (current_section st) (dict_keys sections_init) ->
            dict_keys (flush (fold_left seg_step lines st))
            = dict_keys sections_init) as H.
  { induction lines as [|l ls IH]; intros st Hk Hc; simpl.
    - rewrite flush_keys; [exact Hk | now rewrite Hk].
    - destruct (seg_step_keys st l Hk Hc) as [Hk' Hc']. now apply IH. }
  apply (H seg_init); [reflexivity | now left].
Qed.

(** X2. When no line matches any pattern, the whole text, as its kept
    lines joined by newlines, is the job description and the other four
    sections are empty. *)
Theorem segment_without_markers (lines : list pystr) :
  forallb no_trigger lines = true ->
  segment_lines lines
  = [ (JOB_DESCRIPTION, join [NL] (trimmed_lines lines));
      (REQUIREMENTS, []); (WHAT_WE_OFFER, []);
      (EMPLOYMENT_CONDITIONS, []); (APPLICATION_PROCESS, []) ].
Proof.
  intros H. unfold segment_lines.
  rewrite (fold_no_trigger lines seg_init H).
  cbn [sections current_section current_content seg_init app].
  assert (Hkept : Forall (fun l => kept_line l = true) (trimmed_lines lines)).
  { unfold trimmed_lines. apply Forall_forall. intros l Hl.
    apply filter_In in Hl as [Hl Hne].
    apply in_map_iff in Hl as [x [<- _]]. now apply strip_kept. }
  destruct (trimmed_lines lines) as [|l r] eqn:E; [reflexivity|].
  rewrite flush_cons, (strip_join _ Hkept). reflexivity.
Qed.

Lemma segment_without_markers_witness :
  segment_lines [lit "  Wij zoeken een ontwikkelaar "; []; lit "Kom langs"]
  = [ (JOB_DESCRIPTION,
       join [NL] (trimmed_lines [lit "  Wij zoeken een ontwikkelaar "; [];
                                 lit "Kom langs"]));
      (REQUIREMENTS, []); (WHAT_WE_OFFER, []);
      (EMPLOYMENT_CONDITIONS, []); (APPLICATION_PROCESS, []) ].
Proof.
  apply (segment_without_markers
           [lit "  Wij zoeken een ontwikkelaar "; []; lit "Kom langs"]).
  reflexivity.
Defined.

(** X3. The segmentation sees only the kept lines: blank lines and the
    white space around a line change nothing, and trimming twice is
    trimming once. *)
Theorem segment_lines_trimmed (lines : list pystr) :
  segment_lines (trimmed_lines lines) = segment_lines lines
  /\ trimmed_lines (trimmed_lines lines) = trimmed_lines lines.
Proof.
  split.
  - unfold segment_lines. now rewrite <- fold_trimmed.
  - unfold trimmed_lines.
    induction lines as [|l ls IH]; simpl; [reflexivity|].
    destruct (truthy (strip l)) eqn:E; simpl; [|exact IH].
    rewrite strip_idem, E. now rewrite IH.
Qed.

(** ** Matching is case-insensitive and by substring *)

Lemma ascii_lower_idem (c : N) : ascii_lower (ascii_lower c) = ascii_lower c.
Proof.
  unfold ascii_lower.
  destruct ((65 <=? c) && (c <=? 90)) eqn:E; [|now rewrite E].
  apply andb_true_iff in E as [E1 E2].
  apply N.leb_le in E1, E2.
  assert ((c + 32 <=? 90) = false) as -> by (apply N.leb_gt; lia).
  now rewrite andb_false_r.
Qed.

Lemma ascii_lower_eqb_other (c k : N) :
  is_ascii_letter k = false -> (ascii_lower c =? k) = (c =? k).
Proof.
  unfold is_ascii_letter, ascii_lower. intros Hk.
  destruct ((65 <=? c) && (c <=? 90)) eqn:E; [|reflexivity].
  apply andb_true_iff in E as [E1 E2]. apply N.leb_le in E1, E2.
  apply orb_false_iff in Hk as [Hk1 Hk2].
  destruct (N.eqb_spec (c + 32) k) as [Heq|Hne];
    destruct (N.eqb_spec c k) as [Heq'|Hne']; try reflexivity; subst.
  - exfalso. apply andb_false_iff in Hk2 as [Hk2|Hk2];
      apply N.leb_gt in Hk2; lia.
  - exfalso. apply andb_false_iff in Hk1 as [Hk1|Hk1];
      apply N.leb_gt in Hk1; lia.
Qed.

Lemma char_match_ic_lower (p c : N) :
  char_match_ic p (ascii_lower c) = char_match_ic p c.
Proof.
  unfold char_match_ic. destruct (is_ascii_letter p) eqn:Ep.
  - cbv zeta. rewrite ascii_lower_idem.
    rewrite (ascii_lower_eqb_other c 304), (ascii_lower_eqb_other c 305),
      (ascii_lower_eqb_other c 383), (ascii_lower_eqb_other c 8490)
      by reflexivity.
    reflexivity.
  - now apply ascii_lower_eqb_other.
Qed.

Lemma starts_with_ic_lower (p s : pystr) :
  starts_with_ic p (map ascii_lower s) = starts_with_ic p s.
Proof.
  revert s. induction p as [|x p IH]; intros [|y s]; simpl; try reflexivity.
  now rewrite char_match_ic_lower, IH.
Qed.

Lemma contains_ic_lower (p s : pystr) :
  contains_ic p (map ascii_lower s) = contains_ic p s.
Proof.
  induction s as [|y s IH].
  - reflexivity.
  - change (map ascii_lower (y :: s))
      with (ascii_lower y :: map ascii_lower s).
    cbn [contains_ic]. rewrite IH. f_equal.
    apply (starts_with_ic_lower p (y :: s)).
Qed.

Lemma existsb_same {A} (f g : A -> bool) (l : list A) :
  (forall x, f x = g x) -> existsb f l = existsb g l.
Proof.
  intros H. induction l as [|x l IH]; simpl; [reflexivity|].
  now rewrite H, IH.
Qed.

Lemma find_section_in_ext (table : dict (list regex)) (l l' : pystr) :
  (forall alt, contains_ic alt l = contains_ic alt l') ->
  find_section_in table l = find_section_in table l'.
Proof.
  intros H. induction table as [|[k pats] table IH]; simpl; [reflexivity|].
  rewrite IH.
  replace (existsb (fun pattern => re_search_ic pattern l) pats)
    with (existsb (fun pattern => re_search_ic pattern l') pats);
    [reflexivity|].
  apply existsb_same. intros pattern. unfold re_search_ic.
  apply existsb_same. intros alt. now rewrite H.
Qed.

(** X4. The section that a line starts does not depend on the case of its
    ASCII letters: two lines that agree once their capitals are lowered
    start the same section, or none. *)
Theorem find_section_ignores_case (l l' : pystr) :
  map ascii_lower l = map ascii_lower l' ->
  find_section l = find_section l'.
Proof.
  intros H. unfold find_section. apply find_section_in_ext.
  intros alt. rewrite <- (contains_ic_lower alt l), H.
  apply contains_ic_lower.
Qed.

Lemma find_section_ignores_case_witness :
  find_section (lit "FUNCTIE-EISEN") = find_section (lit "functie-Eisen").
Proof.
  apply (find_section_ignores_case (lit "FUNCTIE-EISEN")
           (lit "functie-Eisen")).
  reflexivity.
Defined.

Lemma starts_with_ic_app (p s b : pystr) :
  starts_with_ic p s = true -> starts_with_ic p (s ++ b) = true.
Proof.
  revert s. induction p as [|x p IH]; intros [|y s]; simpl;
    try reflexivity; try discriminate.
  intros H. apply andb_true_iff in H as [H1 H2].
  now rewrite H1, IH.
Qed.

Lemma contains_ic_app_r (p s b : pystr) :
  contains_ic p s = true -> contains_ic p (s ++ b) = true.
Proof.
  induction s as [|y s IH]; intros H.
  - cbn [contains_ic] in H. rewrite orb_false_r in H.
    destruct p; [|discriminate]. destruct b; reflexivity.
  - cbn [contains_ic] in H. apply orb_true_iff in H as [H|H].
    + change ((y :: s) ++ b) with (y :: s ++ b) .
      cbn [contains_ic].
      pose proof (starts_with_ic_app p (y :: s) b H) as H'.
      change ((y :: s) ++ b) with (y :: s ++ b) in H'.
      now rewrite H'.
    + change ((y :: s) ++ b) with (y :: s ++ b).
      cbn [contains_ic]. rewrite (IH H). apply orb_true_r.
Qed.

Lemma contains_ic_app_l (p a s : pystr) :
  contains_ic p s = true -> contains_ic p (a ++ s) = true.
Proof.
  intros H. induction a as [|y a IH]; [exact H|].
  change ((y :: a) ++ s) with (y :: a ++ s).
  cbn [contains_ic]. rewrite IH. apply orb_true_r.
Qed.

Lemma existsb_impl {A} (f g : A -> bool) (l : list A) :
  (forall x, f x = true -> g x = true) ->
  existsb f l = true -> existsb g l = true.
Proof.
  intros Hfg H. apply existsb_exists in H as [x [Hin Hx]].
  apply existsb_exists. exists x. auto.
Qed.

Lemma find_section_in_substring (table : dict (list regex))
  (a l b : pystr) :
  find_section_in table l <> None ->
  find_section_in table (a ++ l ++ b) <> None.
Proof.
  induction table as [|[k pats] table IH]; simpl; [tauto|].
  destruct (existsb (fun pattern => re_search_ic pattern l) pats) eqn:E.
  - intros _.
    assert (existsb (fun pattern => re_search_ic pattern (a ++ l ++ b)) pats
            = true) as ->; [|discriminate].
    eapply existsb_impl; [|exact E].
    intros pattern Hp. unfold re_search_ic in *.
    eapply existsb_impl; [|exact Hp].
    intros alt Halt. now apply contains_ic_app_l, contains_ic_app_r.
  - intros H.
    destruct (existsb (fun pattern => re_search_ic pattern (a ++ l ++ b))
                      pats); [discriminate | now apply IH].
Qed.

(** X5. A marker is looked for anywhere in the line: text put before and
    after a line that starts a section gives a line that starts a section
    too (the same one, or one that comes earlier in the table). *)
Theorem find_section_by_substring (a l b : pystr) :
  find_section l <> None -> find_section (a ++ l ++ b) <> None.
Proof. apply find_section_in_substring. Qed.

Lemma find_section_by_substring_witness :
  find_section (lit "Stuur je " ++ lit "application" ++ lit " naar ons")
  <> None.
Proof.
  apply (find_section_by_substring (lit "Stuur je ") (lit "application")
           (lit " naar ons")).
  discriminate.
Defined.

(** ** What the section values are made of *)

Lemma in_dict_set {V} (k k' : pystr) (v v' : V) (d : dict V) :
  In (k', v') (dict_set k v d) -> (k', v') = (k, v) \/ In (k', v') d.
Proof.
  induction d as [|[k0 v0] d IH]; simpl.
  - intros [H|[]]. left. now symmetry.
  - destruct (str_eqb k k0); simpl.
    + intros [H|H]; [left; now symmetry | right; now right].
    + intros [H|H]; [right; now left|].
      destruct (IH H) as [H'|H']; [now left | right; now right].
Qed.

Lemma in_concat_incl {A} (x : list A) (ls : list (list A)) :
  In x ls -> incl x (concat ls).
Proof.
  intros Hx a Ha. apply in_concat. exists x. now split.
Qed.

(** X6. Every section value is trimmed, and its lines are lines of the raw
    content as the loop kept them: no blank line, no line of its own. *)
Theorem segment_values_from_raw_lines (content_text k v : pystr) :
  In (k, v) (segment content_text) ->
  strip v = v
  /\ Forall (fun l => In l (raw_lines content_text)) (value_lines v)
  /\ Forall (fun l => kept_line l = true) (value_lines v).
Proof.
  rewrite segment_as_runs.
  set (L := raw_lines content_text).
  set (good := fun v : pystr =>
                 exists r, v = join [NL] r
                           /\ Forall (fun l => clean_line l = true) r
                           /\ incl r L).
  assert (Hruns : Forall (fun r => Forall (fun l => clean_line l = true)
                                          (snd r) /\ incl (snd r) L)
                         (runs_from JOB_DESCRIPTION [] L)).
  { pose proof (runs_from_clean L (raw_lines_clean content_text)
                  JOB_DESCRIPTION [] (Forall_nil _)) as Hc.
    pose proof (runs_from_concat L JOB_DESCRIPTION []) as Hcat.
    simpl in Hcat. apply Forall_forall. intros r Hr. split.
    - rewrite Forall_forall in Hc. now apply Hc.
    - rewrite <- Hcat. apply in_concat_incl. now apply in_map. }
  assert (Hall : forall rs d,
             Forall (fun r => Forall (fun l => clean_line l = true) (snd r)
                              /\ incl (snd r) L) rs ->
             (forall k v, In (k, v) d -> good v) ->
             forall k v, In (k, v) (fold_left apply_run rs d) -> good v).
  { induction rs as [|[s r] rs IH]; intros d Hrs Hd; simpl; [exact Hd|].
    inversion Hrs as [|? ? [Hc Hi] Hrs']; subst. simpl in Hc, Hi.
    apply IH; [exact Hrs'|].
    intros k0 v0. unfold apply_run. simpl.
    destruct r as [|l r]; [apply Hd|].
    intros Hin. apply in_dict_set in Hin as [Heq|Hin]; [|now apply (Hd k0)].
    injection Heq as _ ->. exists (l :: r). auto. }
  intros Hin.
  assert (Hgood : good v).
  { apply (Hall _ sections_init Hruns) with (k := k); [|exact Hin].
    intros k0 v0 H0. exists []. simpl.
    repeat split; [|constructor|intros x []].
    simpl in H0.
    repeat (destruct H0 as [H0|H0]; [now inversion H0|]). destruct H0. }
  destruct Hgood as [r [-> [Hc Hi]]].
  rewrite (value_lines_join r Hc). repeat split.
  - apply strip_join. now apply clean_lines_kept.
  - apply Forall_forall. intros l Hl. now apply Hi.
  - now apply clean_lines_kept.
Qed.

Lemma segment_values_from_raw_lines_witness :
  strip (join [NL] [lit "Functie-eisen"; lit "line B"])
  = join [NL] [lit "Functie-eisen"; lit "line B"].
Proof.
  apply (segment_values_from_raw_lines
           (join [NL] [lit "Functieomschrijving"; lit " line A ";
                       lit "Functie-eisen"; []; lit "line B  "])
           REQUIREMENTS (join [NL] [lit "Functie-eisen"; lit "line B"])).
  vm_compute. tauto.
Defined.

(** ** Features, contact blocks and the company line *)

Lemma find_app_or {A} (f : A -> bool) (a b : list A) :
  find f (a ++ b) = match find f a with
                    | Some x => Some x
                    | None => find f b
                    end.
Proof.
  induction a as [|x a IH]; simpl; [reflexivity|].
  destruct (f x); [reflexivity | exact IH].
Qed.

Lemma dict_get_set {V} (k k' : pystr) (v : V) (d : dict V) :
  dict_get k (dict_set k' v d)
  = if str_eqb k k' then Some v else dict_get k d.
Proof.
  destruct (str_eqb k k') eqn:E.
  - apply str_eqb_eq in E. subst. apply dict_get_set_same.
  - now apply dict_get_set_other.
Qed.

Lemma collect_features_get (elems : list (option pystr * option pystr)) :
  forall (d : dict pystr) (label : pystr),
  dict_get label (collect_features elems d)
  = match last_value label (complete_blocks elems) with
    | Some v => Some v
    | None => dict_get label d
    end.
Proof.
  unfold last_value.
  induction elems as [|[[l|] [desc|]] elems IH]; intros d label;
    try (simpl; now rewrite IH).
  - reflexivity.
  - cbn [collect_features complete_blocks flat_map app].
    rewrite IH. cbn [rev]. rewrite find_app_or.
    fold (complete_blocks elems).
    destruct (find (fun kv => str_eqb label (fst kv))
                   (rev (complete_blocks elems))) as [[k0 v0]|];
      [reflexivity|].
    cbn [find fst snd option_map]. rewrite dict_get_set.
    now destruct (str_eqb label l).
Qed.

(** X7. A feature label maps to the description of the last block that
    has this label and both sub-elements; blocks that lack the label or
    the description count for nothing. *)
Theorem features_last_block_wins
  (elems : list (option pystr * option pystr)) (label : pystr) :
  dict_get label (collect_features elems [])
  = last_value label (complete_blocks elems).
Proof.
  rewrite collect_features_get.
  now destruct (last_value label (complete_blocks elems)).
Qed.

Lemma in_keys_dict_set {V} (k k' : pystr) (v : V) (d : dict V) :
  In k' (dict_keys (dict_set k v d)) <-> k' = k \/ In k' (dict_keys d).
Proof.
  induction d as [|[k0 v0] d IH]; simpl.
  - intuition.
  - destruct (str_eqb k k0) eqn:E; simpl.
    + apply str_eqb_eq in E. subst. intuition.
    + rewrite IH. intuition.
Qed.

Lemma dict_set_nodup {V} (k : pystr) (v : V) (d : dict V) :
  NoDup (dict_keys d) -> NoDup (dict_keys (dict_set k v d)).
Proof.
  induction d as [|[k0 v0] d IH]; simpl; intros H.
  - constructor; [intros [] | constructor].
  - inversion H as [|? ? Hnin Hnd]; subst.
    destruct (str_eqb k k0) eqn:E; simpl.
    + apply str_eqb_eq in E. subst. now constructor.
    + constructor; [|now apply IH].
      intros Hin. apply in_keys_dict_set in Hin as [Heq|Hin]; [|tauto].
      subst. now rewrite str_eqb_refl in E.
Qed.

(** X8. The feature dictionary has each label once, and its labels are
    those of the blocks that have both sub-elements. *)
Theorem features_keys (elems : list (option pystr * option pystr)) :
  NoDup (dict_keys (collect_features elems []))
  /\ forall label,
       In label (dict_keys (collect_features elems []))
       <-> In label (map fst (complete_blocks elems)).
Proof.
  assert (H : forall d,
             NoDup (dict_keys d) ->
             NoDup (dict_keys (collect_features elems d))
             /\ forall label,
                  In label (dict_keys (collect_features elems d))
                  <-> In label (dict_keys d)
                      \/ In label (map fst (complete_blocks elems))).
  { induction elems as [|[[l|] [desc|]] elems IH]; intros d Hd;
      try (simpl; apply IH; exact Hd).
    - simpl. split; [exact Hd | intuition].
    - cbn [collect_features complete_blocks flat_map app map fst].
      fold (complete_blocks elems).
      destruct (IH (dict_set l desc d) (dict_set_nodup l desc d Hd))
        as [Hnd Hkeys].
      split; [exact Hnd|]. intros label. rewrite Hkeys.
      rewrite in_keys_dict_set. simpl. intuition. }
  destruct (H [] (NoDup_nil _)) as [Hnd Hkeys].
  split; [exact Hnd|]. intros label. rewrite Hkeys. simpl. intuition.
Qed.

Lemma collect_contacts_get (elems : list pystr) :
  forall d : dict pystr,
  dict_get K_ADDRESS (collect_contacts elems d)
  = match find_last is_address elems with
    | Some t => Some (replace (lit "Adres | ") [] t)
    | None => dict_get K_ADDRESS d
    end
  /\ dict_get K_CONTACT_DETAILS (collect_contacts elems d)
     = match find_last is_contact_details elems with
       | Some t => Some (replace (lit "Contactgegevens | ") [] t)
       | None => dict_get K_CONTACT_DETAILS d
       end
  /\ forall k, In k (dict_keys (collect_contacts elems d)) ->
               In k (dict_keys d) \/ k = K_ADDRESS \/ k = K_CONTACT_DETAILS.
Proof.
  unfold find_last.
  induction elems as [|t elems IH]; intros d.
  - simpl. auto.
  - cbn [collect_contacts rev]. rewrite !find_app_or. cbn [find].
    destruct (contains (lit "Adres") t) eqn:Ea;
      [|destruct (contains (lit "Contactgegevens") t) eqn:Ec].
    + assert (Ha : is_address t = true) by exact Ea.
      assert (Hc : is_contact_details t = false)
        by (unfold is_contact_details; now rewrite Ea).
      rewrite Ha, Hc.
      destruct (IH (dict_set K_ADDRESS
                      (replace (lit "Adres | ") [] t) d)) as [H1 [H2 H3]].
      rewrite H1, H2. split; [|split].
      * destruct (find is_address (rev elems)); [reflexivity|].
        now rewrite dict_get_set.
      * destruct (find is_contact_details (rev elems)); [reflexivity|].
        now rewrite dict_get_set.
      * intros k Hk. apply H3 in Hk as [Hk|Hk]; [|tauto].
        apply in_keys_dict_set in Hk. tauto.
    + assert (Ha : is_address t = false) by exact Ea.
      assert (Hc : is_contact_details t = true)
        by (unfold is_contact_details; now rewrite Ea, Ec).
      rewrite Ha, Hc.
      destruct (IH (dict_set K_CONTACT_DETAILS
                      (replace (lit "Contactgegevens | ") [] t) d))
        as [H1 [H2 H3]].
      rewrite H1, H2. split; [|split].
      * destruct (find is_address (rev elems)); [reflexivity|].
        now rewrite dict_get_set.
      * destruct (find is_contact_details (rev elems)); [reflexivity|].
        now rewrite dict_get_set.
      * intros k Hk. apply H3 in Hk as [Hk|Hk]; [|tauto].
        apply in_keys_dict_set in Hk. tauto.
    + assert (Ha : is_address t = false) by exact Ea.
      assert (Hc : is_contact_details t = false)
        by (unfold is_contact_details; now rewrite Ea, Ec).
      rewrite Ha, Hc.
      destruct (IH d) as [H1 [H2 H3]].
      rewrite H1, H2. split; [|split].
      * now destruct (find is_address (rev elems)).
      * now destruct (find is_contact_details (rev elems)).
      * exact H3.
Qed.

(** X9. Contact blocks: the address is the last block that contains
    "Adres", the contact details are the last block that contains
    "Contactgegevens" and not "Adres", each with its prefix removed; a
    block with neither word is ignored, and no other key is set. *)
Theorem contacts_classified (elems : list pystr) :
  dict_get K_ADDRESS (collect_contacts elems [])
  = option_map (replace (lit "Adres | ") []) (find_last is_address elems)
  /\ dict_get K_CONTACT_DETAILS (collect_contacts elems [])
     = option_map (replace (lit "Contactgegevens | ") [])
                  (find_last is_contact_details elems)
  /\ forall k, In k (dict_keys (collect_contacts elems [])) ->
               k = K_ADDRESS \/ k = K_CONTACT_DETAILS.
Proof.
  destruct (collect_contacts_get elems []) as [H1 [H2 H3]].
  rewrite H1, H2. split; [|split].
  - now destruct (find_last is_address elems).
  - now destruct (find_last is_contact_details elems).
  - intros k Hk. apply H3 in Hk as [[]|Hk]. exact Hk.
Qed.

(** X10. A company line of three parts or more gives the three fields in
    this order, from the first three parts trimmed; the location loses
    its "Standplaats: " label and further parts are ignored. *)
Theorem company_info_three_parts
  (company_text p0 p1 p2 : pystr) (rest : list pystr) :
  split_on MIDDLE_DOT company_text = p0 :: p1 :: p2 :: rest ->
  parse_company_info company_text
  = [ (K_NAME, strip p0);
      (K_LOCATION, replace (lit "Standplaats: ") [] (strip p1));
      (K_POSTING_DATE, strip p2) ].
Proof.
  intros H. unfold parse_company_info. rewrite H. reflexivity.
Qed.

Lemma company_info_three_parts_witness :
  parse_company_info
    (lit "Acme BV " ++ [MIDDLE_DOT] ++ lit " Standplaats: Amsterdam "
     ++ [MIDDLE_DOT] ++ lit " 3 dagen geleden" ++ [MIDDLE_DOT] ++ lit " x")
  = [ (K_NAME, lit "Acme BV"); (K_LOCATION, lit "Amsterdam");
      (K_POSTING_DATE, lit "3 dagen geleden") ].
Proof.
  apply (company_info_three_parts
           (lit "Acme BV " ++ [MIDDLE_DOT] ++ lit " Standplaats: Amsterdam "
            ++ [MIDDLE_DOT] ++ lit " 3 dagen geleden" ++ [MIDDLE_DOT]
            ++ lit " x")
           (lit "Acme BV ") (lit " Standplaats: Amsterdam ")
           (lit " 3 dagen geleden") [lit " x"]).
  reflexivity.
Defined.

(* ===================================================================== *)
(** * Further properties of the translator adapter *)
(* ===================================================================== *)

(** X11. A call with a text that is not blank sends one request, with the
    prompt built from the text and the two language names, whether the
    request succeeds or fails: nothing is tried again. *)
Theorem translate_text_one_request
  (api : list pystr -> pystr -> api_response)
  (text source_lang target_lang : pystr) (w : world) :
  truthy (strip text) = true ->
  api_calls (snd (translate_text api text source_lang target_lang w))
  = api_calls w
    ++ [make_prompt (lang_name source_lang) (lang_name target_lang) text].
Proof.
  intros Ht. unfold translate_text.
  assert (truthy text = true) as Htext.
  { destruct text; [discriminate Ht | reflexivity]. }
  rewrite Ht, Htext. cbn [negb orb].
  unfold try_except, bind, chat_completions_create, first_choice_text.
  destruct (api (api_calls w) _) as [msg | [|[content|] choices]];
    reflexivity.
Qed.

Lemma translate_text_one_request_witness :
  api_calls (snd (translate_text (fun _ _ => ApiRaises (lit "HTTP 429"))
                    (lit "Hallo") (lit "nl") (lit "fy") empty_world))
  = [make_prompt (lit "Dutch") (lit "fy") (lit "Hallo")].
Proof.
  apply (translate_text_one_request (fun _ _ => ApiRaises (lit "HTTP 429"))
           (lit "Hallo") (lit "nl") (lit "fy") empty_world).
  reflexivity.
Defined.

(** X12. When the service answers with at least one choice that has
    content, the result is the content of the first choice, trimmed; the
    other choices are not looked at, nothing is printed and the heap is
    as before. *)
Theorem translate_text_success
  (api : list pystr -> pystr -> api_response)
  (text source_lang target_lang content : pystr)
  (others : list (option pystr)) (w : world) :
  truthy (strip text) = true ->
  api (api_calls w)
      (make_prompt (lang_name source_lang) (lang_name target_lang) text)
  = ApiReturns (Some content :: others) ->
  translate_text api text source_lang target_lang w
  = (Ok (strip content),
     mkWorld (heap w) (stdout w)
       (api_calls w
        ++ [make_prompt (lang_name source_lang) (lang_name target_lang)
                        text])).
Proof.
  intros Ht Hapi. unfold translate_text.
  assert (truthy text = true) as Htext.
  { destruct text; [discriminate Ht | reflexivity]. }
  rewrite Ht, Htext. cbn [negb orb].
  unfold try_except, bind, chat_completions_create. now rewrite Hapi.
Qed.

Lemma translate_text_success_witness :
  translate_text
    (fun _ _ => ApiReturns [Some (lit " Hello  "); Some (lit "Hi")])
    (lit "Hallo") (lit "nl") (lit "en") empty_world
  = (Ok (lit "Hello"),
     mkWorld [] []
       [make_prompt (lit "Dutch") (lit "English") (lit "Hallo")]).
Proof.
  apply (translate_text_success
           (fun _ _ => ApiReturns [Some (lit " Hello  "); Some (lit "Hi")])
           (lit "Hallo") (lit "nl") (lit "en") (lit " Hello  ")
           [Some (lit "Hi")] empty_world); reflexivity.
Defined.

(** X13. The text that goes to the translator is a prefix of the section
    of at most 3000 characters, and the whole section when it has no more
    than that. *)
Theorem content_to_translate_prefix (content : pystr) :
  (length (content_to_translate content) <= MAX_CONTENT)%nat
  /\ (exists rest, content = content_to_translate content ++ rest)
  /\ ((length content <= MAX_CONTENT)%nat ->
      content_to_translate content = content).
Proof.
  destruct (Nat.le_gt_cases (length content) MAX_CONTENT) as [Hs|Hl].
  - rewrite (content_to_translate_short content Hs).
    repeat split; [exact Hs|]. exists []. now rewrite app_nil_r.
  - destruct (content_to_translate_long content Hl) as [-> Hlen].
    split; [|split].
    + rewrite firstn_length_le; [apply Nat.le_refl|].
      now apply Nat.lt_le_incl.
    + exists (skipn MAX_CONTENT content). now rewrite firstn_skipn.
    + intros Hs. exfalso. now apply (Nat.lt_irrefl MAX_CONTENT),
        (Nat.lt_le_trans _ (length content)).
Qed.

(* ===================================================================== *)
(** * Further properties of the orchestrator *)
(* ===================================================================== *)

Lemma content_to_translate_prefix_witness :
  content_to_translate (lit "Werk") = lit "Werk".
Proof.
  apply (proj2 (proj2 (content_to_translate_prefix (lit "Werk")))).
  vm_compute. lia.
Defined.

Lemma alloc_job_info_run (j : job_info) :
  alloc_job_info j empty_world = (Ok (HRef 7), mkWorld (job_heap j) [] []).
Proof. reflexivity. Qed.

Lemma dict_get_str_values (k : pystr) (d : dict pystr) :
  dict_get k (str_values d) = option_map HStr (dict_get k d).
Proof.
  induction d as [|[k' v] d IH]; simpl; [reflexivity|].
  destruct (str_eqb k k'); [reflexivity | exact IH].
Qed.

Lemma dict_mem_str_values (k : pystr) (d : dict pystr) :
  dict_mem k (str_values d) = dict_mem k d.
Proof.
  unfold dict_mem. rewrite dict_get_str_values.
  now destruct (dict_get k d).
Qed.

(** The loop over the sections: it passes over blank sections and raises
    at the first one that has text. *)
Lemma for_each_sections
  (api : list pystr -> pystr -> api_response) (ts : hval)
  (sc : dict pystr) (w : world) :
  for_each (str_values sc) (translate_section api ts) w
  = if forallb blank_section sc then (Ok tt, w)
    else (Raise (unexpected_keyword (lit "source")), w).
Proof.
  induction sc as [|[k v] sc IH]; [reflexivity|].
  cbn [str_values map for_each forallb fst snd].
  unfold blank_section at 1. cbn [snd].
  unfold bind at 1. unfold translate_section at 1.
  cbn [fst snd as_str]. unfold bind at 1, ret at 1.
  destruct (truthy (strip v)) eqn:E; cbn [negb andb].
  - reflexivity.
  - unfold ret at 1. exact IH.
Qed.

(** Running the orchestrator on a heap whose spine is known: the
    operations are unfolded and the look-ups computed; the calls of the
    adapter and the loop over the sections stay as they are. *)
Ltac py_unfold :=
  unfold translate_structured_job_info, translate_body, translate_feature,
    dict_copy, getitem, has_key, setitem, items, try_except;
  unfold bind, deref, alloc, ret, raise, print.

Ltac py_run :=
  py_unfold; cbn -[translate_text translate_section];
  unfold bind; cbn -[translate_text translate_section].

(** The adapter always returns; it leaves the heap alone, adds at most
    the one request and at most one line of output. *)
Lemma translate_text_ok
  (api : list pystr -> pystr -> api_response)
  (text sl tl : pystr) (w : world) :
  exists v w', translate_text api text sl tl w = (Ok v, w')
    /\ heap w' = heap w
    /\ api_calls w'
       = api_calls w
         ++ (if truthy (strip text)
             then [make_prompt (lang_name sl) (lang_name tl) text] else [])
    /\ (stdout w' = stdout w
        \/ exists msg, stdout w' = stdout w ++ [TRANSLATION_ERROR ++ msg]).
Proof.
  unfold translate_text.
  destruct (truthy (strip text)) eqn:Es.
  - assert (truthy text = true) as ->
      by (destruct text; [discriminate Es | reflexivity]).
    cbn [negb orb].
    unfold try_except, bind, chat_completions_create, first_choice_text.
    destruct (api (api_calls w) _) as [msg | [|[content|] choices]];
      simpl; eexists; eexists; (split; [reflexivity|]); simpl;
      (split; [reflexivity|]); (split; [reflexivity|]);
      ((left; reflexivity) || (right; eexists; reflexivity)).
  - rewrite orb_true_r. exists text, w. rewrite app_nil_r. auto.
Qed.

(** The three ways the orchestrator can go on a record that has just been
    laid out in an empty heap. *)
Lemma translate_run_name_or_title
  (api : list pystr -> pystr -> api_response) (j : job_info) :
  has_name_or_title j = true ->
  translate_structured_job_info api (HRef 7) (mkWorld (job_heap j) [] [])
  = (Ok (HRef 8),
     mkWorld (job_heap j ++ [job_top_dict j]) [JOB_ERROR_LINE] []).
Proof.
  intros H. unfold has_name_or_title in H.
  rewrite <- dict_mem_str_values in H.
  unfold job_heap, job_top_dict, job_details_dict.
  remember (str_values (company_info j)) as ci eqn:Eci. clear Eci.
  remember (str_values (job_features j)) as fs eqn:Efs. clear Efs.
  remember (str_values (contact_info j)) as co eqn:Eco. clear Eco.
  remember (str_values (structured_content j)) as sc eqn:Esc. clear Esc.
  destruct (dict_mem K_NAME ci) eqn:En.
  - py_run. rewrite En. reflexivity.
  - destruct (job_title j) as [t|]; [|discriminate H].
    py_run. rewrite En. reflexivity.
Qed.

Lemma translate_run_features
  (api : list pystr -> pystr -> api_response) (j : job_info)
  (k v : pystr) (rest : dict pystr) :
  has_name_or_title j = false ->
  job_features j = (k, v) :: rest ->
  exists w : world,
    translate_structured_job_info api (HRef 7) (mkWorld (job_heap j) [] [])
    = (Ok (HRef 8), w)
    /\ heap w = job_heap j ++ [job_top_dict j; []]
    /\ api_calls w
       = (if truthy (strip k)
          then [make_prompt (lit "Dutch") (lit "English") k] else [])
    /\ (stdout w = [JOB_ERROR_LINE]
        \/ exists msg,
             stdout w = [TRANSLATION_ERROR ++ msg; JOB_ERROR_LINE]).
Proof.
  intros H Hf. unfold has_name_or_title in H.
  apply orb_false_iff in H as [En Ht].
  rewrite <- dict_mem_str_values in En.
  destruct (job_title j) as [t|] eqn:Et; [discriminate Ht|].
  unfold job_heap, job_top_dict, job_details_dict. rewrite Et, Hf.
  remember (str_values (company_info j)) as ci eqn:Eci. clear Eci.
  remember (str_values (contact_info j)) as co eqn:Eco. clear Eco.
  remember (str_values (structured_content j)) as sc eqn:Esc. clear Esc.
  py_run. rewrite En. cbn -[translate_text translate_section].
  unfold bind. cbn -[translate_text translate_section].
  match goal with
  | |- context [translate_text api k ?a ?b ?W] =>
      destruct (translate_text_ok api k a b W)
        as [tk [w1 [Hrun [Hheap [Hcalls Hout]]]]]; rewrite Hrun
  end.
  cbn -[translate_text translate_section].
  eexists. split; [reflexivity|]. cbn [heap stdout api_calls].
  split; [exact Hheap|]. split; [exact Hcalls|].
  destruct Hout as [-> | [msg ->]]; [left | right; exists msg];
    reflexivity.
Qed.

Lemma translate_run_without_fields
  (api : list pystr -> pystr -> api_response) (j : job_info) :
  has_name_or_title j = false ->
  job_features j = [] ->
  translate_structured_job_info api (HRef 7) (mkWorld (job_heap j) [] [])
  = (Ok (HRef 8),
     if forallb blank_section (structured_content j)
     then mkWorld
            (list_update 2 job_details_with_translation (job_heap j)
             ++ [job_top_dict j ++ [(K_TRANSLATED_SECTIONS, HRef 10)];
                 []; []])
            [] []
     else mkWorld
            (list_update 2 job_details_with_translation (job_heap j)
             ++ [job_top_dict j; []; []])
            [JOB_ERROR_LINE] []).
Proof.
  intros H Hf. unfold has_name_or_title in H.
  apply orb_false_iff in H as [En Ht].
  rewrite <- dict_mem_str_values in En.
  destruct (job_title j) as [t|] eqn:Et; [discriminate Ht|].
  unfold job_heap, job_top_dict, job_details_dict,
    job_details_with_translation.
  rewrite Et, Hf.
  pose proof (fun ts w =>
                for_each_sections api ts (structured_content j) w)
    as Hsec.
  remember (str_values (company_info j)) as ci eqn:Eci. clear Eci.
  remember (str_values (contact_info j)) as co eqn:Eco. clear Eco.
  remember (str_values (structured_content j)) as sc eqn:Esc. clear Esc.
  py_run. rewrite En. cbn -[translate_section]. rewrite Hsec.
  destruct (forallb blank_section (structured_content j)); reflexivity.
Qed.

(** The pipeline is the layout of the record followed by the
    orchestrator. *)
Lemma extract_then_translate_run
  (api : list pystr -> pystr -> api_response) (j : job_info)
  (out : hval) (w : world) :
  translate_structured_job_info api (HRef 7) (mkWorld (job_heap j) [] [])
  = (Ok out, w) ->
  extract_then_translate api j empty_world = (Ok (HRef 7, out), w).
Proof.
  intros Hrun. unfold extract_then_translate.
  unfold bind at 1. rewrite alloc_job_info_run.
  unfold bind. now rewrite Hrun.
Qed.

(** X14. A record with a company name or a title: the first keyword call
    raises, so the copy comes back as it was made, no request is sent,
    the one line of the handler is printed, and the objects of the input
    are what they were. *)
Theorem translate_with_name_or_title
  (api : list pystr -> pystr -> api_response) (j : job_info) :
  has_name_or_title j = true ->
  extract_then_translate api j empty_world
  = (Ok (HRef 7, HRef 8),
     mkWorld (job_heap j ++ [job_top_dict j]) [JOB_ERROR_LINE] []).
Proof.
  intros H. apply extract_then_translate_run.
  now apply translate_run_name_or_title.
Qed.

Lemma translate_with_name_or_title_witness :
  extract_then_translate (fun _ _ => ApiReturns [Some (lit "Developer")])
    (mkJobInfo (lit "u") (lit "t") [] (Some (lit "Ontwikkelaar")) [] []
               (lit "Werk") (segment (lit "Werk")))
    empty_world
  = (Ok (HRef 7, HRef 8),
     mkWorld
       (job_heap (mkJobInfo (lit "u") (lit "t") []
                    (Some (lit "Ontwikkelaar")) [] [] (lit "Werk")
                    (segment (lit "Werk")))
        ++ [job_top_dict (mkJobInfo (lit "u") (lit "t") []
                            (Some (lit "Ontwikkelaar")) [] [] (lit "Werk")
                            (segment (lit "Werk")))])
       [JOB_ERROR_LINE] []).
Proof.
  apply (translate_with_name_or_title
           (fun _ _ => ApiReturns [Some (lit "Developer")])
           (mkJobInfo (lit "u") (lit "t") [] (Some (lit "Ontwikkelaar"))
                      [] [] (lit "Werk") (segment (lit "Werk")))).
  reflexivity.
Defined.

(** X15. A record with neither name nor title but with features: the
    label of the first feature is sent to the service (if it is not
    blank), then the keyword call for its value raises; nothing is
    stored, the objects of the input are what they were, and the other
    features and the sections are not looked at. *)
Theorem translate_with_features
  (api : list pystr -> pystr -> api_response) (j : job_info)
  (k v : pystr) (rest : dict pystr) :
  has_name_or_title j = false ->
  job_features j = (k, v) :: rest ->
  exists w : world,
    extract_then_translate api j empty_world = (Ok (HRef 7, HRef 8), w)
    /\ heap w = job_heap j ++ [job_top_dict j; []]
    /\ api_calls w
       = (if truthy (strip k)
          then [make_prompt (lit "Dutch") (lit "English") k] else [])
    /\ (stdout w = [JOB_ERROR_LINE]
        \/ exists msg,
             stdout w = [TRANSLATION_ERROR ++ msg; JOB_ERROR_LINE]).
Proof.
  intros H Hf.
  destruct (translate_run_features api j k v rest H Hf)
    as [w [Hrun Hrest]].
  exists w. split; [|exact Hrest].
  now apply extract_then_translate_run.
Qed.

Lemma translate_with_features_witness :
  exists w : world,
    extract_then_translate (fun _ _ => ApiReturns [Some (lit "Hours")])
      (mkJobInfo (lit "u") (lit "t") [] None [(lit "Uren", lit "40")] []
                 (lit "Werk") (segment (lit "Werk")))
      empty_world
    = (Ok (HRef 7, HRef 8), w)
    /\ api_calls w = [make_prompt (lit "Dutch") (lit "English") (lit "Uren")].
Proof.
  destruct (translate_with_features
              (fun _ _ => ApiReturns [Some (lit "Hours")])
              (mkJobInfo (lit "u") (lit "t") [] None [(lit "Uren", lit "40")]
                         [] (lit "Werk") (segment (lit "Werk")))
              (lit "Uren") (lit "40") [] eq_refl eq_refl)
    as [w [Hrun [_ [Hcalls _]]]].
  exists w. split; [exact Hrun | exact Hcalls].
Defined.

(** X16. A record with no name, no title and no feature: the empty
    dictionary of translated features is stored under the [job_details]
    of the input itself; then, if every section is blank, the copy gets
    an empty [translated_sections] and nothing is printed, and otherwise
    the first section with text makes the call raise and the handler
    print its line. No request is sent either way. *)
Theorem translate_without_fields
  (api : list pystr -> pystr -> api_response) (j : job_info) :
  has_name_or_title j = false ->
  job_features j = [] ->
  extract_then_translate api j empty_world
  = (Ok (HRef 7, HRef 8),
     if forallb blank_section (structured_content j)
     then mkWorld
            (list_update 2 job_details_with_translation (job_heap j)
             ++ [job_top_dict j ++ [(K_TRANSLATED_SECTIONS, HRef 10)];
                 []; []])
            [] []
     else mkWorld
            (list_update 2 job_details_with_translation (job_heap j)
             ++ [job_top_dict j; []; []])
            [JOB_ERROR_LINE] []).
Proof.
  intros H Hf. apply extract_then_translate_run.
  now apply translate_run_without_fields.
Qed.

Lemma translate_without_fields_witness :
  nested_has
    (snd (extract_then_translate (fun _ _ => ApiRaises (lit "down"))
            (mkJobInfo (lit "u") (lit "t") [] None [] [] [] (segment []))
            empty_world))
    (HRef 7) K_JOB_DETAILS K_FEATURES_TRANSLATED = true.
Proof.
  rewrite (translate_without_fields (fun _ _ => ApiRaises (lit "down"))
             (mkJobInfo (lit "u") (lit "t") [] None [] [] [] (segment []))
             eq_refl eq_refl).
  reflexivity.
Defined.

(** X17. Whatever the record and whatever the service answers, the
    orchestrator returns a new record and does not raise; it sends at most
    one request; the company information and the job details of the
    result have no translated name and no translated title; and the
    result has a [translated_sections] entry exactly when the record gave
    nothing to translate, in which case the entry is empty. *)
Theorem translate_never_translates
  (api : list pystr -> pystr -> api_response) (j : job_info) :
  exists w : world,
    extract_then_translate api j empty_world = (Ok (HRef 7, HRef 8), w)
    /\ (length (api_calls w) <= 1)%nat
    /\ lookup_in w (HRef 8) K_COMPANY_INFO
       = Some (str_values (company_info j))
    /\ nested_has w (HRef 8) K_JOB_DETAILS K_TITLE_EN = false
    /\ top_has w (HRef 8) K_TRANSLATED_SECTIONS = nothing_to_translate j
    /\ (lookup_in w (HRef 8) K_TRANSLATED_SECTIONS = None
        \/ lookup_in w (HRef 8) K_TRANSLATED_SECTIONS = Some []).
Proof.
  unfold nothing_to_translate. fold blank_section.
  destruct (has_name_or_title j) eqn:Hnt.
  - eexists. split.
    { apply extract_then_translate_run.
      now apply translate_run_name_or_title. }
    unfold lookup_in, nested_has, top_has, lookup_in, lookup.
    cbn [heap api_calls length]. unfold job_heap, job_details_dict.
    destruct (job_title j); cbn; auto 6.
  - assert (Ht : job_title j = None).
    { unfold has_name_or_title in Hnt.
      apply orb_false_iff in Hnt as [_ Ht].
      now destruct (job_title j). }
    destruct (job_features j) as [|[k v] rest] eqn:Hf.
    + eexists. split.
      { apply extract_then_translate_run.
        now apply translate_run_without_fields. }
      unfold lookup_in, nested_has, top_has, lookup_in, lookup.
      unfold job_heap, job_details_dict, job_details_with_translation.
      rewrite Ht.
      destruct (forallb blank_section (structured_content j)); cbn; auto 6.
    + destruct (translate_run_features api j k v rest Hnt Hf)
        as [w [Hrun [Hheap [Hcalls Hout]]]].
      exists w. split; [now apply extract_then_translate_run|].
      unfold lookup_in, nested_has, top_has, lookup_in, lookup.
      rewrite Hheap, Hcalls.
      unfold job_heap, job_details_dict. rewrite Ht.
      destruct (truthy (strip k)); cbn; auto 6.
Qed.

(* ===================================================================== *)
(** * Properties of the report *)
(* ===================================================================== *)

Lemma outcome_ret {A} (a : A) : outcome (ret a) (Ok a) [].
Proof. intros [h o c]. unfold ret. simpl. now rewrite app_nil_r. Qed.

Lemma outcome_raise {A} (e : exn) : outcome (@raise A e) (Raise e) [].
Proof. intros [h o c]. unfold raise. simpl. now rewrite app_nil_r. Qed.

Lemma outcome_print (l : pystr) : outcome (print l) (Ok tt) [l].
Proof. intros w. reflexivity. Qed.

Lemma outcome_bind {A B} (m : M A) (k : A -> M B) (a : A)
  (res : result B) (l1 l2 : list pystr) :
  outcome m (Ok a) l1 -> outcome (k a) res l2 ->
  outcome (bind m k) res (l1 ++ l2).
Proof.
  intros Hm Hk w. unfold bind. rewrite Hm, Hk. simpl.
  now rewrite app_assoc.
Qed.

Lemma outcome_for_each {A} (f : A -> M unit) (xs : list A) :
  (forall x, exists l, outcome (f x) (Ok tt) l) ->
  exists l, outcome (for_each xs f) (Ok tt) l.
Proof.
  intros Hf. induction xs as [|x xs [l2 IH]]; simpl.
  - exists []. apply outcome_ret.
  - destruct (Hf x) as [l1 H1]. exists (l1 ++ l2).
    now apply outcome_bind with (a := tt).
Qed.

(** Chaining a printing step in front of a computation. *)
Ltac print_step :=
  lazymatch goal with
  | |- exists l, outcome (bind (print ?x) _) _ _ =>
      let l2 := fresh "l" in
      let H := fresh "H" in
      eassert (exists l2, outcome _ _ l2) as [l2 H];
      [ | eexists; eapply outcome_bind; [apply outcome_print | exact H] ]
  | |- exists l, outcome (print ?x) _ _ =>
      eexists; apply outcome_print
  | |- exists l, outcome (ret tt) _ _ =>
      eexists; apply outcome_ret
  end.

Lemma print_title_outcome (r : report) :
  exists l, outcome (print_title r) (Ok tt) l.
Proof.
  unfold print_title.
  destruct (rp_title r); [|print_step].
  destruct (rp_title_en r); repeat print_step.
Qed.

Lemma print_company_outcome (ci : dict pystr) :
  exists l, outcome (print_company ci) (Ok tt) l.
Proof.
  unfold print_company.
  assert (H1 : exists l,
    outcome (match dict_get K_NAME ci with
             | Some name =>
                 print (lit "Company:  " ++ name) ;;
                 match dict_get K_NAME_EN ci with
                 | Some name_en =>
                     print (lit "         (" ++ name_en ++ lit ")")
                 | None => ret tt
                 end
             | None => ret tt
             end) (Ok tt) l).
  { destruct (dict_get K_NAME ci); [|print_step].
    destruct (dict_get K_NAME_EN ci); repeat print_step. }
  assert (H2 : exists l,
    outcome (match dict_get K_LOCATION ci with
             | Some location => print (lit "Location: " ++ location)
             | None => ret tt
             end) (Ok tt) l).
  { destruct (dict_get K_LOCATION ci); print_step. }
  assert (H3 : exists l,
    outcome (match dict_get K_POSTING_DATE ci with
             | Some posting_date => print (lit "Posted:   " ++ posting_date)
             | None => ret tt
             end) (Ok tt) l).
  { destruct (dict_get K_POSTING_DATE ci); print_step. }
  destruct H1 as [l1 H1], H2 as [l2 H2], H3 as [l3 H3].
  eexists.
  eapply outcome_bind; [apply outcome_print|].
  eapply outcome_bind; [apply outcome_print|].
  eapply outcome_bind; [exact H1|].
  eapply outcome_bind; [exact H2 | exact H3].
Qed.

Lemma print_features_outcome (r : report) :
  exists l, outcome (print_features r) (Ok tt) l.
Proof.
  unfold print_features.
  destruct (match rp_features_translated r with
            | Some d => nonempty_dict d | None => false end).
  - destruct (outcome_for_each
                (fun kv : pystr * pystr =>
                   print (fst kv) ;; print (lit "    " ++ snd kv) ;;
                   print [])
                (match rp_features_translated r with
                 | Some d => d | None => [] end)) as [l H].
    { intros x. repeat print_step. }
    eexists.
    eapply outcome_bind; [apply outcome_print|].
    eapply outcome_bind; [apply outcome_print | exact H].
  - destruct (match rp_features r with
              | Some d => nonempty_dict d | None => false end);
      [|print_step].
    destruct (outcome_for_each
                (fun kv : pystr * pystr =>
                   print (pad_right 15 (fst kv) ++ lit ": " ++ snd kv))
                (match rp_features r with Some d => d | None => [] end))
      as [l H].
    { intros x. print_step. }
    eexists.
    eapply outcome_bind; [apply outcome_print|].
    eapply outcome_bind; [apply outcome_print | exact H].
Qed.

Lemma print_contact_outcome (contact : dict pystr) :
  exists l, outcome (print_contact contact) (Ok tt) l.
Proof.
  unfold print_contact.
  destruct (nonempty_dict contact); [|print_step].
  destruct (outcome_for_each
              (fun kv : pystr * pystr =>
                 if truthy (snd kv)
                 then print (fst kv ++ lit ": " ++ snd kv)
                 else ret tt) contact) as [l H].
  { intros x. destruct (truthy (snd x)); print_step. }
  eexists.
  eapply outcome_bind; [apply outcome_print|].
  eapply outcome_bind; [apply outcome_print | exact H].
Qed.

Lemma print_sections_outcome (py_upper : pystr -> pystr) (r : report) :
  exists l, outcome (print_sections py_upper r) (Ok tt) l.
Proof.
  unfold print_sections.
  destruct (rp_translated_sections r) as [ts|]; [|print_step].
  destruct (outcome_for_each (print_section py_upper) ts) as [l H].
  { intros [name sd]. unfold print_section.
    destruct (truthy (strip (sd_translated sd))); repeat print_step. }
  eexists.
  eapply outcome_bind; [apply outcome_print|].
  eapply outcome_bind; [apply outcome_print | exact H].
Qed.

Lemma outcome_lines {A} (m : M A) (res : result A) (l l' : list pystr) :
  outcome m res l -> l = l' -> outcome m res l'.
Proof. now intros H <-. Qed.

(** The report up to the statistics. *)
Lemma print_report_body (py_upper : pystr -> pystr) (r : report)
  (res : result unit) (tail : list pystr) :
  outcome (print_statistics r) res tail ->
  exists mid,
    outcome (print_structured_job_info py_upper r) res
      ([ [NL] ++ rule_eq 80;
         [127919] ++ lit " STRUCTURED JOB ANALYSIS REPORT";
         rule_eq 80;
         [10; 128203] ++ lit " BASIC INFORMATION";
         rule_dash 40;
         [128279] ++ lit " URL: " ++ rp_url r;
         [9200] ++ lit " Extracted: " ++ rp_extraction_timestamp r ]
       ++ mid ++ tail).
Proof.
  intros Hstat.
  destruct (print_title_outcome r) as [lt Ht].
  destruct (print_company_outcome (rp_company_info r)) as [lc Hc].
  destruct (print_features_outcome r) as [lf Hf].
  destruct (print_contact_outcome (rp_contact_info r)) as [lct Hct].
  destruct (print_sections_outcome py_upper r) as [ls Hs].
  exists (lt ++ lc ++ lf ++ lct ++ ls).
  unfold print_structured_job_info.
  eapply outcome_lines.
  - do 7 (eapply outcome_bind; [apply outcome_print|]).
    eapply outcome_bind; [exact Ht|].
    eapply outcome_bind; [exact Hc|].
    eapply outcome_bind; [exact Hf|].
    eapply outcome_bind; [exact Hct|].
    eapply outcome_bind; [exact Hs | exact Hstat].
  - cbn [app]. do 7 f_equal. now rewrite <- !app_assoc.
Qed.

(** X18. A record without [translated_sections]: the report is printed up
    to the number of words and then [KeyError: 'translated_sections'] is
    raised; the guard that protects the section listing is not repeated
    before the count of sections. Nothing but the output is changed. *)
Theorem print_report_without_sections
  (py_upper : pystr -> pystr) (r : report) :
  rp_translated_sections r = None ->
  exists mid,
    outcome (print_structured_job_info py_upper r)
      (Raise MISSING_TRANSLATED_SECTIONS)
      ([ [NL] ++ rule_eq 80;
         [127919] ++ lit " STRUCTURED JOB ANALYSIS REPORT";
         rule_eq 80;
         [10; 128203] ++ lit " BASIC INFORMATION";
         rule_dash 40;
         [128279] ++ lit " URL: " ++ rp_url r;
         [9200] ++ lit " Extracted: " ++ rp_extraction_timestamp r ]
       ++ mid
       ++ [ [10; 128202] ++ lit " EXTRACTION STATISTICS";
            rule_dash 40;
            lit "Total words extracted: "
            ++ str_of_nat (length (split_ws (rp_raw_content r))) ]).
Proof.
  intros Hnone. apply print_report_body.
  unfold print_statistics. rewrite Hnone.
  eapply outcome_lines.
  - do 3 (eapply outcome_bind; [apply outcome_print|]).
    apply outcome_raise.
  - reflexivity.
Qed.

Lemma print_report_without_sections_witness :
  fst (print_structured_job_info (fun s => s)
         (mkReport (lit "u") (lit "t") [] (Some (lit "Ontwikkelaar")) None
                   (Some []) None [] (lit "Werk bij ons") None)
         empty_world)
  = Raise MISSING_TRANSLATED_SECTIONS.
Proof.
  destruct (print_report_without_sections (fun s => s)
              (mkReport (lit "u") (lit "t") [] (Some (lit "Ontwikkelaar"))
                        None (Some []) None [] (lit "Werk bij ons") None)
              eq_refl) as [mid H].
  now rewrite H.
Defined.

(** X19. A record with [translated_sections]: the report is printed to
    the end without an exception; it starts with the banner, the URL and
    the time of extraction, and ends with the number of words of the raw
    content, the number of sections whose translation is not blank, and
    the closing banner. Nothing but the output is changed. *)
Theorem print_report_with_sections
  (py_upper : pystr -> pystr) (r : report) (ts : dict section_data) :
  rp_translated_sections r = Some ts ->
  exists mid,
    outcome (print_structured_job_info py_upper r) (Ok tt)
      ([ [NL] ++ rule_eq 80;
         [127919] ++ lit " STRUCTURED JOB ANALYSIS REPORT";
         rule_eq 80;
         [10; 128203] ++ lit " BASIC INFORMATION";
         rule_dash 40;
         [128279] ++ lit " URL: " ++ rp_url r;
         [9200] ++ lit " Extracted: " ++ rp_extraction_timestamp r ]
       ++ mid
       ++ [ [10; 128202] ++ lit " EXTRACTION STATISTICS";
            rule_dash 40;
            lit "Total words extracted: "
            ++ str_of_nat (length (split_ws (rp_raw_content r)));
            lit "Sections identified: "
            ++ str_of_nat (sections_with_content ts);
            [NL] ++ rule_eq 80;
            [9989] ++ lit " ANALYSIS COMPLETE";
            rule_eq 80 ]).
Proof.
  intros Hsome. apply print_report_body.
  unfold print_statistics. rewrite Hsome.
  eapply outcome_lines.
  - do 6 (eapply outcome_bind; [apply outcome_print|]).
    apply outcome_print.
  - reflexivity.
Qed.

Lemma print_report_with_sections_witness :
  fst (print_structured_job_info (fun s => s)
         (mkReport (lit "u") (lit "t") [] None None (Some []) (Some [])
                   [] [] (Some []))
         empty_world)
  = Ok tt.
Proof.
  destruct (print_report_with_sections (fun s => s)
              (mkReport (lit "u") (lit "t") [] None None (Some [])
                        (Some []) [] [] (Some []))
              [] eq_refl) as [mid H].
  now rewrite H.
Defined.

(** ** The report after the orchestrator *)

Lemma str_dict_str_values (d : dict pystr) :
  str_dict (str_values d) = Some d.
Proof.
  induction d as [|[k v] d IH]; simpl; [reflexivity|]. now rewrite IH.
Qed.

Ltac read_run :=
  unfold read_report, lookup_in, lookup, read_opt_dict, read_str,
    read_opt_str;
  cbn -[str_dict str_values]; rewrite ?str_dict_str_values;
  cbn -[str_dict str_values].

Lemma read_after_first_call (j : job_info) (out calls : list pystr) :
  read_report (mkWorld (job_heap j ++ [job_top_dict j]) out calls) (HRef 8)
  = Some (report_of j None None).
Proof.
  unfold job_heap, job_top_dict, job_details_dict.
  destruct j as [u t ci [title|] fs co raw sc]; read_run; reflexivity.
Qed.

Lemma read_after_feature (j : job_info) (out calls : list pystr) :
  job_title j = None ->
  read_report
    (mkWorld (job_heap j ++ [job_top_dict j; []]) out calls) (HRef 8)
  = Some (report_of j None None).
Proof.
  unfold job_heap, job_top_dict, job_details_dict.
  destruct j as [u t ci [title|] fs co raw sc]; [discriminate|].
  intros _. read_run; reflexivity.
Qed.

Lemma read_after_sections (j : job_info) (out calls : list pystr)
  (b : bool) :
  job_title j = None ->
  read_report
    (mkWorld (list_update 2 job_details_with_translation (job_heap j)
              ++ [job_top_dict j
                  ++ (if b then [(K_TRANSLATED_SECTIONS, HRef 10)] else []);
                  []; []]) out calls) (HRef 8)
  = Some (report_of j (Some []) (if b then Some [] else None)).
Proof.
  unfold job_heap, job_top_dict, job_details_dict,
    job_details_with_translation.
  destruct j as [u t ci [title|] fs co raw sc]; [discriminate|].
  intros _. destruct b; read_run; reflexivity.
Qed.

Lemma print_statistics_missing (r : report) :
  rp_translated_sections r = None ->
  outcome (print_statistics r) (Raise MISSING_TRANSLATED_SECTIONS)
    [ [10; 128202] ++ lit " EXTRACTION STATISTICS";
      rule_dash 40;
      lit "Total words extracted: "
      ++ str_of_nat (length (split_ws (rp_raw_content r))) ].
Proof.
  intros Hnone. unfold print_statistics. rewrite Hnone.
  eapply outcome_lines.
  - do 3 (eapply outcome_bind; [apply outcome_print|]).
    apply outcome_raise.
  - reflexivity.
Qed.

Lemma print_statistics_present (r : report) (ts : dict section_data) :
  rp_translated_sections r = Some ts ->
  outcome (print_statistics r) (Ok tt)
    [ [10; 128202] ++ lit " EXTRACTION STATISTICS";
      rule_dash 40;
      lit "Total words extracted: "
      ++ str_of_nat (length (split_ws (rp_raw_content r)));
      lit "Sections identified: " ++ str_of_nat (sections_with_content ts);
      [NL] ++ rule_eq 80;
      [9989] ++ lit " ANALYSIS COMPLETE";
      rule_eq 80 ].
Proof.
  intros Hsome. unfold print_statistics. rewrite Hsome.
  eapply outcome_lines.
  - do 6 (eapply outcome_bind; [apply outcome_print|]).
    apply outcome_print.
  - reflexivity.
Qed.

(** X20. From the extractor to the report: whenever the record has
    anything to translate (a name, a title, a feature, or a section with
    text), the record that the orchestrator returns has no
    [translated_sections], and printing the report from it raises
    [KeyError: 'translated_sections'] after the statistics header. *)
Theorem report_aborts_after_translation
  (api : list pystr -> pystr -> api_response)
  (py_upper : pystr -> pystr) (j : job_info) :
  nothing_to_translate j = false ->
  exists (w : world) (r : report) (lines : list pystr),
    extract_then_translate api j empty_world = (Ok (HRef 7, HRef 8), w)
    /\ read_report w (HRef 8) = Some r
    /\ rp_translated_sections r = None
    /\ print_structured_job_info py_upper r w
       = (Raise MISSING_TRANSLATED_SECTIONS,
          mkWorld (heap w) (stdout w ++ lines) (api_calls w)).
Proof.
  unfold nothing_to_translate. fold blank_section. intros Hsome.
  assert (Hprint : forall ft w,
    exists lines,
      print_structured_job_info py_upper (report_of j ft None) w
      = (Raise MISSING_TRANSLATED_SECTIONS,
         mkWorld (heap w) (stdout w ++ lines) (api_calls w))).
  { intros ft w.
    destruct (print_report_body py_upper (report_of j ft None) _ _
                (print_statistics_missing (report_of j ft None) eq_refl))
      as [mid H].
    eexists. apply H. }
  destruct (has_name_or_title j) eqn:Hnt.
  - destruct (Hprint None
                (mkWorld (job_heap j ++ [job_top_dict j])
                         [JOB_ERROR_LINE] [])) as [lines Hl].
    eexists. exists (report_of j None None), lines.
    split; [apply extract_then_translate_run;
            now apply translate_run_name_or_title|].
    split; [apply read_after_first_call|].
    split; [reflexivity | exact Hl].
  - assert (Ht : job_title j = None).
    { unfold has_name_or_title in Hnt.
      apply orb_false_iff in Hnt as [_ Ht].
      now destruct (job_title j). }
    destruct (job_features j) as [|[k v] rest] eqn:Hf.
    + cbn [negb andb] in Hsome.
      pose proof (translate_run_without_fields api j Hnt Hf) as Hrun.
      rewrite Hsome in Hrun.
      destruct (Hprint (Some [])
                  (mkWorld
                     (list_update 2 job_details_with_translation (job_heap j)
                      ++ [job_top_dict j; []; []])
                     [JOB_ERROR_LINE] [])) as [lines Hl].
      eexists. exists (report_of j (Some []) None), lines.
      split; [apply extract_then_translate_run; exact Hrun|].
      split; [apply (read_after_sections j _ _ false Ht)|].
      split; [reflexivity | exact Hl].
    + destruct (translate_run_features api j k v rest Hnt Hf)
        as [[h o c] [Hrun [Hheap _]]].
      cbn [heap] in Hheap. subst h.
      destruct (Hprint None
                  (mkWorld (job_heap j ++ [job_top_dict j; []]) o c))
        as [lines Hl].
      eexists. exists (report_of j None None), lines.
      split; [apply extract_then_translate_run; exact Hrun|].
      split; [now apply read_after_feature|].
      split; [reflexivity | exact Hl].
Qed.

Lemma report_aborts_after_translation_witness :
  exists (w : world) (r : report) (lines : list pystr),
    extract_then_translate (fun _ _ => ApiReturns [Some (lit "Work")])
      (mkJobInfo (lit "u") (lit "t") [] (Some (lit "Ontwikkelaar")) [] []
                 (lit "Werk") (segment (lit "Werk")))
      empty_world = (Ok (HRef 7, HRef 8), w)
    /\ read_report w (HRef 8) = Some r
    /\ rp_translated_sections r = None
    /\ print_structured_job_info (fun s => s) r w
       = (Raise MISSING_TRANSLATED_SECTIONS,
          mkWorld (heap w) (stdout w ++ lines) (api_calls w)).
Proof.
  apply (report_aborts_after_translation
           (fun _ _ => ApiReturns [Some (lit "Work")]) (fun s => s)
           (mkJobInfo (lit "u") (lit "t") [] (Some (lit "Ontwikkelaar"))
                      [] [] (lit "Werk") (segment (lit "Werk")))).
  reflexivity.
Defined.

(** X21. From the extractor to the report, the other way: when the record
    has nothing to translate, the report is printed to the end, and it
    says that no section was identified. *)
Theorem report_completes_without_translation
  (api : list pystr -> pystr -> api_response)
  (py_upper : pystr -> pystr) (j : job_info) :
  nothing_to_translate j = true ->
  exists (w : world) (r : report) (mid : list pystr),
    extract_then_translate api j empty_world = (Ok (HRef 7, HRef 8), w)
    /\ read_report w (HRef 8) = Some r
    /\ rp_translated_sections r = Some []
    /\ outcome (print_structured_job_info py_upper r) (Ok tt)
         ([ [NL] ++ rule_eq 80;
            [127919] ++ lit " STRUCTURED JOB ANALYSIS REPORT";
            rule_eq 80;
            [10; 128203] ++ lit " BASIC INFORMATION";
            rule_dash 40;
            [128279] ++ lit " URL: " ++ url j;
            [9200] ++ lit " Extracted: " ++ extraction_timestamp j ]
          ++ mid
          ++ [ [10; 128202] ++ lit " EXTRACTION STATISTICS";
               rule_dash 40;
               lit "Total words extracted: "
               ++ str_of_nat (length (split_ws (raw_content j)));
               lit "Sections identified: 0";
               [NL] ++ rule_eq 80;
               [9989] ++ lit " ANALYSIS COMPLETE";
               rule_eq 80 ]).
Proof.
  unfold nothing_to_translate. fold blank_section. intros Hnone.
  apply andb_true_iff in Hnone as [Hnone Hblank].
  apply andb_true_iff in Hnone as [Hnt Hf].
  apply negb_true_iff in Hnt.
  assert (Ht : job_title j = None).
  { unfold has_name_or_title in Hnt.
    apply orb_false_iff in Hnt as [_ Ht].
    now destruct (job_title j). }
  destruct (job_features j) as [|kv rest] eqn:Ef; [|discriminate Hf].
  pose proof (translate_run_without_fields api j Hnt Ef) as Hrun.
  rewrite Hblank in Hrun.
  destruct (print_report_body py_upper (report_of j (Some []) (Some []))
              _ _ (print_statistics_present
                     (report_of j (Some []) (Some [])) [] eq_refl))
    as [mid H].
  eexists. exists (report_of j (Some []) (Some [])), mid.
  split; [apply extract_then_translate_run; exact Hrun|].
  split; [apply (read_after_sections j _ _ true Ht)|].
  split; [reflexivity | exact H].
Qed.

Lemma report_completes_without_translation_witness :
  exists (w : world) (r : report),
    extract_then_translate (fun _ _ => ApiRaises (lit "down"))
      (mkJobInfo (lit "u") (lit "t") [] None [] [] [] (segment []))
      empty_world = (Ok (HRef 7, HRef 8), w)
    /\ read_report w (HRef 8) = Some r
    /\ rp_translated_sections r = Some [].
Proof.
  destruct (report_completes_without_translation
              (fun _ _ => ApiRaises (lit "down")) (fun s => s)
              (mkJobInfo (lit "u") (lit "t") [] None [] [] [] (segment []))
              eq_refl) as [w [r [mid [Hrun [Hread [Hts _]]]]]].
  exists w, r. auto.
Defined.

(* ===================================================================== *)
(** * Properties of the environment file *)
(* ===================================================================== *)

Lemma skipped_line_test (line : pystr) :
  truthy (strip line) && negb (starts_with [HASH] line)
  = negb (skipped_line line).
Proof.
  unfold skipped_line. rewrite negb_orb, negb_involutive. reflexivity.
Qed.

(** X22. Blank lines and lines that start with "#" have no effect: the
    file loads as the file without them does, whatever the platform does
    on an assignment. *)
Theorem load_env_skips_comments
  (environ_set : dict pystr -> pystr -> pystr -> pystr + dict pystr)
  (lines : list pystr) (environ : dict pystr) :
  load_env_lines environ_set lines environ
  = load_env_lines environ_set
      (filter (fun l => negb (skipped_line l)) lines) environ.
Proof.
  revert environ. induction lines as [|l ls IH]; intros environ;
    [reflexivity|].
  cbn [load_env_lines filter]. rewrite skipped_line_test.
  destruct (negb (skipped_line l)) eqn:E; [|apply IH].
  cbn [load_env_lines]. rewrite skipped_line_test, E.
  destruct (split_first EQUALS (strip l)) as [[k v]|]; [|reflexivity].
  destruct (environ_set environ k v); [reflexivity | apply IH].
Qed.

Lemma split_first_none (sep : N) (s : pystr) :
  existsb (N.eqb sep) s = false -> split_first sep s = None.
Proof.
  induction s as [|c s IH]; simpl; [reflexivity|].
  intros H. apply orb_false_iff in H as [Hc Hs].
  rewrite N.eqb_sym, Hc. now rewrite IH.
Qed.

(** X23. A line that is neither blank nor starts with "#" and has no "="
    stops the loading with the unpacking error: the lines after it are
    not read, and the environment keeps what the lines before it have
    set. An indented comment is such a line. *)
Theorem load_env_line_without_equals
  (environ_set : dict pystr -> pystr -> pystr -> pystr + dict pystr)
  (line : pystr) (rest : list pystr) (environ : dict pystr) :
  skipped_line line = false ->
  existsb (N.eqb EQUALS) (strip line) = false ->
  load_env_lines environ_set (line :: rest) environ
  = (Some UnpackError, environ).
Proof.
  intros Hs He. cbn [load_env_lines].
  rewrite skipped_line_test, Hs. cbn [negb].
  now rewrite split_first_none.
Qed.

Lemma load_env_line_without_equals_witness :
  load_env_lines (fun e k v => inr (dict_set k v e))
    [lit "  # the key of the service"; lit "GROQ_API_KEY=abc"] []
  = (Some UnpackError, []).
Proof.
  apply (load_env_line_without_equals (fun e k v => inr (dict_set k v e))
           (lit "  # the key of the service") [lit "GROQ_API_KEY=abc"] []);
    reflexivity.
Defined.

Lemma split_first_app (sep : N) (key value : pystr) :
  existsb (N.eqb sep) key = false ->
  split_first sep (key ++ sep :: value) = Some (key, value).
Proof.
  induction key as [|c key IH]; simpl.
  - now rewrite N.eqb_refl.
  - intros H. apply orb_false_iff in H as [Hc Hk].
    rewrite N.eqb_sym, Hc. now rewrite IH.
Qed.

(** X24. A line "key=value" (trimmed as a whole, the key without "=")
    assigns [value] to [key]: the line is cut at its first "=", so the
    value may contain "=", and neither part is trimmed on its own. On a
    platform that accepts the assignment, the loading goes on with the
    next line in the new environment. *)
Theorem load_env_assignment
  (environ_set : dict pystr -> pystr -> pystr -> pystr + dict pystr)
  (line key value : pystr) (rest : list pystr)
  (environ environ' : dict pystr) :
  skipped_line line = false ->
  strip line = key ++ EQUALS :: value ->
  existsb (N.eqb EQUALS) key = false ->
  environ_set environ key value = inr environ' ->
  load_env_lines environ_set (line :: rest) environ
  = load_env_lines environ_set rest environ'.
Proof.
  intros Hs Hl Hk Hset. cbn [load_env_lines].
  rewrite skipped_line_test, Hs. cbn [negb].
  now rewrite Hl, split_first_app, Hset.
Qed.

Lemma load_env_assignment_witness :
  load_env_lines (fun e k v => inr (dict_set k v e))
    [lit "GROQ_API_KEY=gsk=abc" ++ [NL]] []
  = load_env_lines (fun e k v => inr (dict_set k v e)) []
      [(lit "GROQ_API_KEY", lit "gsk=abc")].
Proof.
  apply (load_env_assignment (fun e k v => inr (dict_set k v e))
           (lit "GROQ_API_KEY=gsk=abc" ++ [NL])
           (lit "GROQ_API_KEY") (lit "gsk=abc") [] []
           [(lit "GROQ_API_KEY", lit "gsk=abc")]);
    reflexivity.
Defined.

(* ===================================================================== *)
(** * Properties of the listing scrapers *)
(* ===================================================================== *)

Lemma grows_refl (w : world) : grows w w [] [].
Proof. unfold grows. now rewrite !app_nil_r. Qed.

Lemma grows_trans (w w1 w2 : world) (o1 o2 c1 c2 : list pystr) :
  grows w w1 o1 c1 -> grows w1 w2 o2 c2 ->
  grows w w2 (o1 ++ o2) (c1 ++ c2).
Proof.
  intros [Hh1 [Ho1 Hc1]] [Hh2 [Ho2 Hc2]]. unfold grows.
  rewrite Hh2, Ho2, Hc2, Hh1, Ho1, Hc1. now rewrite !app_assoc.
Qed.

Lemma yields_ret {A} (a : A) (P : A -> Prop) :
  P a -> yields (ret a) P [].
Proof.
  intros Ha w. exists a, w, [].
  split; [reflexivity|]. split; [exact Ha | apply grows_refl].
Qed.

Lemma yields_print (l : pystr) : yields (print l) (fun _ => True) [].
Proof.
  intros w. exists tt. eexists. exists [l].
  split; [reflexivity|]. split; [exact I|].
  unfold grows. simpl. now rewrite app_nil_r.
Qed.

Lemma yields_bind {A B} (m : M A) (k : A -> M B)
  (P : A -> Prop) (Q : B -> Prop) (c1 c2 : list pystr) :
  yields m P c1 -> (forall a, P a -> yields (k a) Q c2) ->
  yields (bind m k) Q (c1 ++ c2).
Proof.
  intros Hm Hk w.
  destruct (Hm w) as [a [w1 [o1 [Hrun [Ha Hg1]]]]].
  destruct (Hk a Ha w1) as [b [w2 [o2 [Hrun2 [Hb Hg2]]]]].
  exists b, w2, (o1 ++ o2). split.
  - unfold bind. now rewrite Hrun.
  - split; [exact Hb|]. now apply grows_trans with (w1 := w1).
Qed.

Lemma yields_print_then {B} (l : pystr) (k : M B) (Q : B -> Prop)
  (calls : list pystr) :
  yields k Q calls -> yields (bind (print l) (fun _ => k)) Q calls.
Proof.
  intros Hk. change calls with ([] ++ calls).
  eapply yields_bind; [apply yields_print|]. intros _ _. exact Hk.
Qed.

Lemma yields_try {A} (body : M A) (handler : exn -> M A)
  (P : A -> Prop) (calls : list pystr) :
  yields body P calls -> yields (try_except body handler) P calls.
Proof.
  intros Hb w. destruct (Hb w) as [a [w' [out [Hrun H]]]].
  exists a, w', out. split; [|exact H].
  unfold try_except. now rewrite Hrun.
Qed.

Lemma yields_translate_text
  (api : list pystr -> pystr -> api_response) (text : pystr) :
  yields (translate_text api text (lit "nl") (lit "en")) (fun _ => True)
         (requests_for [text]).
Proof.
  intros w.
  destruct (translate_text_ok api text (lit "nl") (lit "en") w)
    as [v [w' [Hrun [Hheap [Hcalls Hout]]]]].
  assert (Hreq : api_calls w' = api_calls w ++ requests_for [text]).
  { rewrite Hcalls. unfold requests_for. simpl.
    now destruct (truthy (strip text)). }
  exists v, w'.
  destruct Hout as [Hout | [msg Hout]].
  - exists []. split; [exact Hrun|]. split; [exact I|].
    unfold grows. rewrite app_nil_r. auto.
  - eexists. split; [exact Hrun|]. split; [exact I|].
    unfold grows. eauto.
Qed.

Lemma requests_for_app (a b : list pystr) :
  requests_for (a ++ b) = requests_for a ++ requests_for b.
Proof. unfold requests_for. now rewrite filter_app, map_app. Qed.

Lemma title_requests_app (a b : list job_card) :
  title_requests (a ++ b) = title_requests a ++ title_requests b.
Proof.
  unfold title_requests, cards_with_text.
  now rewrite filter_app, map_app, requests_for_app.
Qed.

Lemma requests_for_empty_text (t : pystr) :
  truthy t = false -> requests_for [t] = [].
Proof. destruct t; [reflexivity | discriminate]. Qed.

Lemma app_chain {A} (x y p q : list A) :
  y = x ++ p -> y ++ q = x ++ (p ++ q).
Proof. intros ->. now rewrite app_assoc. Qed.

Lemma app_tail4 {A} (x y out : list A) (a b c d : A) :
  y = x ++ out ->
  (((y ++ [a]) ++ [b]) ++ [c]) ++ [d] = x ++ out ++ [a; b; c; d].
Proof. intros ->. now rewrite <- !app_assoc. Qed.

(** *** [stress_test_translation] *)

Lemma stress_card_yields
  (api : list pystr -> pystr -> api_response)
  (i : nat) (card : job_card) (n : nat) :
  yields (stress_card api i card n)
         (eq (n + length (cards_with_text [card]))%nat)
         (requests_for [card_text card]).
Proof.
  unfold stress_card, cards_with_text. cbn [filter].
  destruct (truthy (card_text card)) eqn:Et; cbn [negb length].
  - do 2 apply yields_print_then.
    rewrite <- (app_nil_r (requests_for [card_text card])).
    eapply yields_bind with (P := eq (S n)).
    + apply yields_try.
      rewrite <- (app_nil_r (requests_for [card_text card])).
      eapply yields_bind; [apply yields_translate_text|].
      intros v _. apply yields_print_then. now apply yields_ret.
    + intros c <-. apply yields_print_then. apply yields_ret.
      now rewrite Nat.add_1_r.
  - rewrite (requests_for_empty_text _ Et).
    apply yields_ret. now rewrite Nat.add_0_r.
Qed.

Lemma stress_cards_yields
  (api : list pystr -> pystr -> api_response) (cards : list job_card) :
  forall i n,
  yields (stress_cards api i cards n)
         (eq (n + length (cards_with_text cards))%nat)
         (requests_for (map card_text cards)).
Proof.
  induction cards as [|card rest IH]; intros i n.
  - apply yields_ret. simpl. now rewrite Nat.add_0_r.
  - cbn [stress_cards map].
    change (card_text card :: map card_text rest)
      with ([card_text card] ++ map card_text rest).
    rewrite requests_for_app.
    eapply yields_bind; [apply stress_card_yields|].
    intros c <-.
    replace (n + length (cards_with_text (card :: rest)))%nat
      with (n + length (cards_with_text [card])
            + length (cards_with_text rest))%nat; [apply IH|].
    unfold cards_with_text. cbn [filter].
    destruct (truthy (card_text card)); simpl; lia.
Qed.

(** X25. The stress test never raises. On a page with job cards it sends
    one request for each card whose text is not blank, and its last line
    reports as successfully translated every card that has text, whatever
    the service answered: a failed request is not counted as a failure. *)
Theorem stress_test_counts_every_card
  (api : list pystr -> pystr -> api_response)
  (fetch : pystr -> page_result) (page_url : pystr)
  (card : job_card) (cards : list job_card) (w : world) :
  fetch page_url = PageCards (card :: cards) ->
  exists (w' : world) (out : list pystr),
    stress_test_translation api fetch page_url w = (Ok tt, w')
    /\ grows w w'
         (out
          ++ [lit "Found " ++ str_of_nat (length (card :: cards))
              ++ lit " items in total, successfully translated "
              ++ str_of_nat (length (cards_with_text (card :: cards)))
              ++ lit " of them."])
         (requests_for (map card_text (card :: cards))).
Proof.
  intros Hfetch. unfold stress_test_translation. rewrite Hfetch.
  set (all := card :: cards).
  unfold bind at 1 2 3 4. cbn [print].
  match goal with
  | |- context [bind (stress_cards api 0 all 0) _ ?W] =>
      destruct (stress_cards_yields api all 0 0 W)
        as [c [w1 [o1 [Hrun [Hc [Hh [Ho Hcalls]]]]]]]
  end.
  unfold bind at 1. rewrite Hrun. subst c. cbn [Nat.add].
  unfold bind, print. cbn [heap stdout api_calls] in *.
  eexists. eexists. split; [reflexivity|].
  unfold grows. cbn [heap stdout api_calls].
  split; [exact Hh|]. split; [|exact Hcalls].
  rewrite Ho. repeat (eapply app_chain). symmetry. apply app_nil_r.
Qed.

(** *** [scrape_multiple_pages] *)

Lemma translate_title_yields
  (api : list pystr -> pystr -> api_response)
  (card : job_card) (t : nat) :
  yields (translate_title api card t)
         (eq (t + length (cards_with_text [card]))%nat)
         (title_requests [card]).
Proof.
  unfold translate_title, title_requests, cards_with_text. cbn [filter].
  destruct (truthy (card_text card)) eqn:Et; cbn [negb length map].
  - apply yields_try.
    rewrite <- (app_nil_r (requests_for [card_title card])).
    eapply yields_bind; [apply yields_translate_text|].
    intros v _. apply yields_print_then. apply yields_ret.
    now rewrite Nat.add_1_r.
  - apply yields_ret. now rewrite Nat.add_0_r.
Qed.

Lemma cards_with_text_app (a b : list job_card) :
  cards_with_text (a ++ b) = cards_with_text a ++ cards_with_text b.
Proof. unfold cards_with_text. apply filter_app. Qed.

Lemma translate_titles_yields
  (api : list pystr -> pystr -> api_response) (cards : list job_card) :
  forall t,
  yields (translate_titles api cards t)
         (eq (t + length (cards_with_text cards))%nat)
         (title_requests cards).
Proof.
  induction cards as [|card rest IH]; intros t.
  - apply yields_ret. simpl. now rewrite Nat.add_0_r.
  - cbn [translate_titles].
    change (card :: rest) with ([card] ++ rest).
    rewrite title_requests_app, cards_with_text_app, length_app.
    eapply yields_bind; [apply translate_title_yields|].
    intros c <-. rewrite Nat.add_assoc. apply IH.
Qed.

Lemma scrape_pages_yields
  (api : list pystr -> pystr -> api_response)
  (fetch : pystr -> page_result) (base_url : pystr)
  (page_nums : list nat) :
  forall found translated,
  yields (scrape_pages api fetch base_url page_nums found translated)
    (eq ((found + length (scraped_cards fetch base_url page_nums))%nat,
         (translated
          + length (cards_with_text
                      (scraped_cards fetch base_url page_nums)))%nat))
    (title_requests (scraped_cards fetch base_url page_nums)).
Proof.
  induction page_nums as [|p rest IH]; intros found translated.
  - apply yields_ret. simpl. now rewrite !Nat.add_0_r.
  - cbn [scrape_pages scraped_cards].
    do 3 apply yields_print_then.
    destruct (fetch (paginated_url base_url p)) as [msg|msg|[|c cards]].
    + apply yields_print_then. apply IH.
    + apply yields_print_then. apply IH.
    + apply yields_print_then. apply yields_ret.
      simpl. now rewrite !Nat.add_0_r.
    + apply yields_print_then.
      rewrite title_requests_app, cards_with_text_app, !length_app.
      eapply yields_bind; [apply translate_titles_yields|].
      intros t <-. rewrite !Nat.add_assoc. apply IH.
Qed.

Lemma scrape_multiple_pages_run
  (api : list pystr -> pystr -> api_response)
  (fetch : pystr -> page_result) (base_url : pystr)
  (num_pages_to_scrape : Z) (w : world) :
  exists (w' : world) (out : list pystr),
    scrape_multiple_pages api fetch base_url num_pages_to_scrape w
    = (Ok tt, w')
    /\ grows w w'
         (out
          ++ [ [10] ++ lit "--- Multi-Page Scraping Complete ---";
               lit "Total pages scraped: " ++ str_of_Z num_pages_to_scrape;
               lit "Total jobs found: "
               ++ str_of_nat
                    (length (scraped_cards fetch base_url
                               (seq 1 (Z.to_nat num_pages_to_scrape))));
               lit "Total jobs successfully translated: "
               ++ str_of_nat
                    (length (cards_with_text
                               (scraped_cards fetch base_url
                                  (seq 1 (Z.to_nat num_pages_to_scrape))))) ])
         (title_requests
            (scraped_cards fetch base_url
               (seq 1 (Z.to_nat num_pages_to_scrape)))).
Proof.
  unfold scrape_multiple_pages.
  set (pages := seq 1 (Z.to_nat num_pages_to_scrape)).
  unfold bind at 1. cbn [print].
  match goal with
  | |- context [bind (scrape_pages api fetch base_url pages 0 0) _ ?W] =>
      destruct (scrape_pages_yields api fetch base_url pages 0 0 W)
        as [totals [w1 [o1 [Hrun [Ht [Hh [Ho Hcalls]]]]]]]
  end.
  unfold bind at 1. rewrite Hrun. subst totals. cbn [Nat.add fst snd].
  unfold bind, print. cbn [heap stdout api_calls] in *.
  eexists. eexists. split; [reflexivity|].
  unfold grows. cbn [heap stdout api_calls].
  split; [exact Hh|]. split; [|exact Hcalls].
  rewrite Ho.
  apply (app_tail4 (stdout w)).
  repeat (eapply app_chain). symmetry. apply app_nil_r.
Qed.

(** X26. The multi-page scraper never raises. Its summary gives, as the
    number of pages scraped, the number that was asked for; as jobs found,
    the cards of the pages up to the first page without cards (pages that
    fail are passed over); and as successfully translated, every one of
    these cards that has text, whatever the service answered. One request
    is sent for each such card whose title is not blank. *)
Theorem scrape_multiple_pages_summary
  (api : list pystr -> pystr -> api_response)
  (fetch : pystr -> page_result) (base_url : pystr)
  (num_pages_to_scrape : Z) (w : world) :
  exists (w' : world) (out : list pystr),
    scrape_multiple_pages api fetch base_url num_pages_to_scrape w
    = (Ok tt, w')
    /\ heap w' = heap w
    /\ stdout w'
       = stdout w ++ out
         ++ [ [10] ++ lit "--- Multi-Page Scraping Complete ---";
              lit "Total pages scraped: " ++ str_of_Z num_pages_to_scrape;
              lit "Total jobs found: "
              ++ str_of_nat
                   (length (scraped_cards fetch base_url
                              (seq 1 (Z.to_nat num_pages_to_scrape))));
              lit "Total jobs successfully translated: "
              ++ str_of_nat
                   (length (cards_with_text
                              (scraped_cards fetch base_url
                                 (seq 1 (Z.to_nat num_pages_to_scrape))))) ]
    /\ api_calls w'
       = api_calls w
         ++ title_requests
              (scraped_cards fetch base_url
                 (seq 1 (Z.to_nat num_pages_to_scrape))).
Proof.
  destruct (scrape_multiple_pages_run api fetch base_url
              num_pages_to_scrape w) as [w' [out [Hrun [Hh [Ho Hc]]]]].
  exists w', out. auto.
Qed.





Lemma stress_test_counts_every_card_witness :
  exists (w' : world) (out : list pystr),
    stress_test_translation (fun _ _ => ApiRaises (lit "down"))
      (fun _ => PageCards [mkCard (lit "Ontwikkelaar | Acme") (lit "Ontwikkelaar");
                           mkCard [] (lit "Tester")])
      (lit "https://example.nl/zoeken") empty_world
    = (Ok tt, w')
    /\ grows empty_world w'
         (out ++ [lit "Found 2 items in total, successfully translated 1 of them."])
         [make_prompt (lit "Dutch") (lit "English") (lit "Ontwikkelaar | Acme")].
Proof.
  apply (stress_test_counts_every_card (fun _ _ => ApiRaises (lit "down"))
           (fun _ => PageCards [mkCard (lit "Ontwikkelaar | Acme")
                                       (lit "Ontwikkelaar");
                                mkCard [] (lit "Tester")])
           (lit "https://example.nl/zoeken")
           (mkCard (lit "Ontwikkelaar | Acme") (lit "Ontwikkelaar"))
           [mkCard [] (lit "Tester")] empty_world).
  reflexivity.
Defined.

(** *** [run_large_scale_translation_test] *)

Lemma yields_clock {T} (time_time : world -> T) :
  yields (clock T time_time) (fun _ => True) [].
Proof.
  intros w. exists (time_time w), w, [].
  split; [reflexivity|]. split; [exact I | apply grows_refl].
Qed.

Lemma yields_try_raise {A} (body : M A) (handler : exn -> M A)
  (e : exn) (P : A -> Prop) (calls : list pystr) :
  (forall w, body w = (Raise e, w)) ->
  yields (handler e) P calls -> yields (try_except body handler) P calls.
Proof.
  intros Hb Hh w. unfold try_except. rewrite Hb. apply Hh.
Qed.

Lemma large_scale_cards_yields
  (api : list pystr -> pystr -> api_response) (T : Type)
  (time_time : world -> T) (fmt_seconds : T -> T -> pystr)
  (max_jobs_to_translate : Z) (cards : list job_card) :
  yields (large_scale_cards api T time_time fmt_seconds
            max_jobs_to_translate cards 0 [])
         (eq (O, [])) [].
Proof.
  induction cards as [|card rest IH].
  - now apply yields_ret.
  - cbn [large_scale_cards].
    destruct (max_jobs_to_translate <=? Z.of_nat 0)%Z;
      [now apply yields_ret|].
    destruct (negb (truthy (card_text card))); [exact IH|].
    change (@nil pystr) with (@nil pystr ++ ([] ++ [])).
    eapply yields_bind; [apply yields_clock|]. intros t0 _.
    eapply yields_bind with (P := eq (O, [])).
    + eapply yields_try_raise with (e := unexpected_keyword (lit "source")).
      * intros w. reflexivity.
      * apply yields_print_then. now apply yields_ret.
    + intros st <-. exact IH.
Qed.

Lemma large_scale_pages_yields
  (api : list pystr -> pystr -> api_response)
  (fetch : pystr -> page_result) (T : Type)
  (time_time : world -> T) (fmt_seconds : T -> T -> pystr)
  (base_url : pystr) (max_jobs_to_translate : Z)
  (fuel page_num : nat) :
  yields (large_scale_pages api fetch T time_time fmt_seconds fuel
            base_url max_jobs_to_translate page_num 0 [])
         nothing_counted [].
Proof.
  revert page_num. induction fuel as [|fuel IH]; intros page_num.
  - cbn [large_scale_pages].
    destruct (negb (Z.of_nat 0 <? max_jobs_to_translate)%Z);
      apply yields_ret; unfold nothing_counted; eauto.
  - cbn [large_scale_pages].
    destruct (negb (Z.of_nat 0 <? max_jobs_to_translate)%Z);
      [apply yields_ret; unfold nothing_counted; eauto|].
    apply yields_print_then.
    destruct (fetch (paginated_url base_url page_num))
      as [msg | msg | [|card cards]].
    + apply yields_print_then. apply IH.
    + apply yields_ret. unfold nothing_counted; eauto.
    + apply yields_print_then. apply yields_ret.
      unfold nothing_counted; eauto.
    + change (@nil pystr) with (@nil pystr ++ []).
      eapply yields_bind; [apply large_scale_cards_yields|].
      intros st <-. apply IH.
Qed.

Lemma large_scale_pages_go_on
  (api : list pystr -> pystr -> api_response)
  (fetch : pystr -> page_result) (T : Type)
  (time_time : world -> T) (fmt_seconds : T -> T -> pystr)
  (base_url : pystr) (max_jobs_to_translate : Z) :
  (0 < max_jobs_to_translate)%Z ->
  (forall page_num,
     page_goes_on (fetch (paginated_url base_url page_num)) = true) ->
  forall fuel page_num,
    yields (large_scale_pages api fetch T time_time fmt_seconds fuel
              base_url max_jobs_to_translate page_num 0 [])
           (eq (StillRunning (fuel + page_num) 0)) [].
Proof.
  intros Hmax Hgo fuel. induction fuel as [|fuel IH]; intros page_num;
    cbn [large_scale_pages];
    replace (Z.of_nat 0 <? max_jobs_to_translate)%Z with true
      by (symmetry; apply Z.ltb_lt; exact Hmax);
    cbn [negb].
  - now apply yields_ret.
  - apply yields_print_then.
    specialize (Hgo page_num).
    replace (S fuel + page_num)%nat with (fuel + S page_num)%nat by lia.
    destruct (fetch (paginated_url base_url page_num))
      as [msg | msg | [|card cards]]; try discriminate.
    + apply yields_print_then. apply IH.
    + change (@nil pystr) with (@nil pystr ++ []).
      eapply yields_bind; [apply large_scale_cards_yields|].
      intros st <-. apply IH.
Qed.

(** X28. The large-scale test never translates a job: the keyword call of
    the translator raises before any request is sent, the handler of the
    loop prints the failure and the counter stays at zero. Whatever the
    pages hold and however many passes of the loop are run, no request is
    sent and the heap is left alone; the loop has then ended with no job
    counted, or was left by an exception of the page, or is still running
    with no job counted. When it has ended, the report says that zero jobs
    were translated and that there is no successful translation to report
    on. *)
Theorem large_scale_test_translates_nothing
  (api : list pystr -> pystr -> api_response)
  (fetch : pystr -> page_result) (T : Type)
  (time_time : world -> T) (fmt_seconds : T -> T -> pystr)
  (fmt_min fmt_max fmt_avg : list (T * T) -> pystr)
  (fuel : nat) (base_url : pystr) (max_jobs_to_translate : Z)
  (w : world) :
  exists (e : loop_end T) (w' : world),
    run_large_scale_translation_test api fetch T time_time fmt_seconds
      fmt_min fmt_max fmt_avg fuel base_url max_jobs_to_translate w
    = (Ok e, w')
    /\ heap w' = heap w
    /\ api_calls w' = api_calls w
    /\ nothing_counted e
    /\ (forall count times, e = Ended count times ->
        exists (out : list pystr) (seconds : pystr),
          stdout w'
          = stdout w ++ out
            ++ [ [10] ++ lit "--- Test Complete: Performance Report ---";
                 lit "Total jobs translated: 0";
                 lit "Total time taken: " ++ seconds ++ lit " seconds";
                 lit "No successful translations to report on." ]).
Proof.
  unfold run_large_scale_translation_test.
  unfold bind at 1. cbn [print].
  unfold bind at 1. unfold clock at 1.
  match goal with
  | |- context [bind (large_scale_pages _ _ _ _ _ _ _ _ _ _ _) _ ?W] =>
      destruct (large_scale_pages_yields api fetch T time_time fmt_seconds
                  base_url max_jobs_to_translate fuel 1 W)
        as [e [w1 [o1 [Hrun [He [Hh [Ho Hcalls]]]]]]]
  end.
  unfold bind at 1. rewrite Hrun.
  cbn [heap stdout api_calls] in Hh, Ho, Hcalls.
  rewrite app_nil_r in Hcalls.
  destruct He as [-> | [[msg ->] | [p ->]]].
  - unfold bind, print, clock. cbn [heap stdout api_calls].
    eexists. eexists. split; [reflexivity|].
    cbn [heap stdout api_calls].
    split; [exact Hh|]. split; [exact Hcalls|].
    split; [left; reflexivity|].
    intros count times _. eexists. eexists.
    rewrite Ho.
    apply (app_tail4 (stdout w)).
    eapply app_chain. reflexivity.
  - unfold ret. eexists. eexists. split; [reflexivity|].
    split; [exact Hh|]. split; [exact Hcalls|].
    split; [right; left; eauto|]. discriminate.
  - unfold ret. eexists. eexists. split; [reflexivity|].
    split; [exact Hh|]. split; [exact Hcalls|].
    split; [right; right; eauto|]. discriminate.
Qed.

(** X29. When a positive number of jobs is asked for and no page stops
    the loop (every page has job cards, or its request fails with a
    [RequestException]), the large-scale test does not end: after any
    number of passes of the loop it is still running, at the next page,
    with no job translated and no request sent. *)
Theorem large_scale_test_never_ends
  (api : list pystr -> pystr -> api_response)
  (fetch : pystr -> page_result) (T : Type)
  (time_time : world -> T) (fmt_seconds : T -> T -> pystr)
  (fmt_min fmt_max fmt_avg : list (T * T) -> pystr)
  (base_url : pystr) (max_jobs_to_translate : Z)
  (Hmax : (0 < max_jobs_to_translate)%Z)
  (Hpages : forall page_num,
      page_goes_on (fetch (paginated_url base_url page_num)) = true)
  (fuel : nat) (w : world) :
  exists w' : world,
    run_large_scale_translation_test api fetch T time_time fmt_seconds
      fmt_min fmt_max fmt_avg fuel base_url max_jobs_to_translate w
    = (Ok (StillRunning (fuel + 1) 0), w')
    /\ api_calls w' = api_calls w.
Proof.
  unfold run_large_scale_translation_test.
  unfold bind at 1. cbn [print].
  unfold bind at 1. unfold clock at 1.
  match goal with
  | |- context [bind (large_scale_pages _ _ _ _ _ _ _ _ _ _ _) _ ?W] =>
      destruct (large_scale_pages_go_on api fetch T time_time fmt_seconds
                  base_url max_jobs_to_translate Hmax Hpages fuel 1 W)
        as [e [w1 [o1 [Hrun [He [Hh [Ho Hcalls]]]]]]]
  end.
  unfold bind at 1. rewrite Hrun. subst e.
  cbn [heap stdout api_calls] in Hcalls. rewrite app_nil_r in Hcalls.
  unfold ret. eexists. split; [reflexivity | exact Hcalls].
Qed.

Lemma large_scale_test_never_ends_witness :
  exists w' : world,
    run_large_scale_translation_test
      (fun _ _ => ApiReturns [Some (lit "Software developer")])
      (fun _ => PageCards [mkCard (lit "Software ontwikkelaar | Utrecht")
                                  (lit "Software ontwikkelaar")])
      unit (fun _ => tt) (fun _ _ => lit "0.00")
      (fun _ => lit "0.00") (fun _ => lit "0.00") (fun _ => lit "0.00")
      3 (lit "https://www.example.nl/vacatures?q=it") 5 empty_world
    = (Ok (StillRunning (3 + 1) 0), w')
    /\ api_calls w' = api_calls empty_world.
Proof.
  apply (large_scale_test_never_ends
           (fun _ _ => ApiReturns [Some (lit "Software developer")])
           (fun _ => PageCards
                       [mkCard (lit "Software ontwikkelaar | Utrecht")
                               (lit "Software ontwikkelaar")])
           unit (fun _ => tt) (fun _ _ => lit "0.00")
           (fun _ => lit "0.00") (fun _ => lit "0.00")
           (fun _ => lit "0.00")
           (lit "https://www.example.nl/vacatures?q=it") 5%Z).
  - reflexivity.
  - intros page_num. reflexivity.
Defined.

(** *** [test_basic_translation] *)





